(** * Third-party notices generator: [scripts/gen-third-party-notices.py]

    A shallow embedding of the script and the properties its specification
    states about it.

    Modelling conventions.
    - A Python [str] is a [string], one [ascii] per code point, so the model
      covers text whose code points are below 256; [isspace] and [lower] are
      Python's [str.isspace] and [str.lower] on that range.
    - The filesystem and the version-control command are a snapshot, the
      record [World]: which paths are files, which are directories, what a
      file holds, and what [git] prints.  Operating-system faults (a file
      that exists but cannot be opened, an output path that cannot be
      written) are not part of the snapshot.
    - The manifest is modelled after [json.load]: either decoding raises, or
      it yields a document whose optional ["pins"] array holds objects with
      optional string fields [identity] and [location] and an optional
      [state] object with string values.
    - A run ends in one of three ways, the type [result]: a normal return,
      [sys.exit] with a status after text was printed to standard error, or
      an exception nobody catches.  The one exception of the model is the
      failure of [json.load]; the script has others (a manifest that
      decodes to another shape, an output path that cannot be written), on
      inputs and faults the conventions above leave out, so nothing here
      says that a run of the script cannot raise. *)

From Stdlib Require Import Ascii String List Bool ZArith Lia.
From stdpp Require Import base option list sorting strings gmap.

#[local] Set Warnings "-clear-no-such-hyp".
#[local] Arguments String.append : simpl nomatch.

Local Open Scope string_scope.
Local Open Scope list_scope.

(** ** Python string primitives *)

Module Py.

(** [str.isspace] on one character. *)
Definition isspace (c : ascii) : bool :=
  let n := N_of_ascii c in
  (((9 <=? n) && (n <=? 13)) || ((28 <=? n) && (n <=? 32))
   || (n =? 133) || (n =? 160))%N.

(** [str.lower] on one character: A-Z and the Latin-1 capitals. *)
Definition lower_char (c : ascii) : ascii :=
  let n := N_of_ascii c in
  if (((65 <=? n) && (n <=? 90))
      || ((192 <=? n) && (n <=? 222) && negb (n =? 215)))%N
  then ascii_of_N (n + 32) else c.

Fixpoint lower (s : string) : string :=
  match s with
  | "" => ""
  | String c s' => String (lower_char c) (lower s')
  end.

(** [s.lstrip()] and [s.rstrip()] over a character class; [s.strip()]. *)
Fixpoint lstrip_by (p : ascii -> bool) (s : string) : string :=
  match s with
  | "" => ""
  | String c s' => if p c then lstrip_by p s' else s
  end.

Fixpoint rstrip_by (p : ascii -> bool) (s : string) : string :=
  match s with
  | "" => ""
  | String c s' =>
      match rstrip_by p s' with
      | "" => if p c then "" else String c ""
      | r => String c r
      end
  end.

Definition strip (s : string) : string :=
  lstrip_by isspace (rstrip_by isspace s).

(** [sep.join(parts)]. *)
Fixpoint join (sep : string) (parts : list string) : string :=
  match parts with
  | [] => ""
  | [x] => x
  | x :: rest => x +:+ sep +:+ join sep rest
  end.

(** [s[:n]]. *)
Fixpoint take (n : nat) (s : string) : string :=
  match n, s with
  | S n', String c s' => String c (take n' s')
  | _, _ => ""
  end.

(** [s[:-n]] for [n > 0]. *)
Definition drop_last (n : nat) (s : string) : string :=
  take (String.length s - n) s.

Definition startswith (s pre : string) : bool := String.prefix pre s.

Fixpoint endswith (s suf : string) : bool :=
  if String.eqb s suf then true
  else match s with
       | "" => false
       | String _ s' => endswith s' suf
       end.

(** Truthiness of a string, and [s or d]. *)
Definition truthy (s : string) : bool :=
  match s with "" => false | _ => true end.

Definition or_else (s d : string) : string := if truthy s then s else d.

(** [os.path.join(a, *p)] (posixpath). *)
Definition join2 (path b : string) : string :=
  if startswith b "/" then b
  else if negb (truthy path) || endswith path "/" then path +:+ b
  else path +:+ "/" +:+ b.

Definition path_join (a : string) (p : list string) : string :=
  fold_left join2 p a.

(** [os.path.basename(p)]: what follows the last slash. *)
Fixpoint basename_go (cur s : string) : string :=
  match s with
  | "" => cur
  | String c s' =>
      if Ascii.eqb c "/" then basename_go s' s' else basename_go cur s'
  end.

Definition basename (p : string) : string := basename_go p p.

(** [sorted(l)] and [l.sort(key=...)]: a stable sort that compares with
    [<] on the keys; the stable arrangement of a list is unique, so
    insertion stands for it. *)
Section Sort.
Context {A : Type} (key : A -> string).

Fixpoint insert_by (x : A) (l : list A) : list A :=
  match l with
  | [] => [x]
  | y :: l' =>
      if String.ltb (key y) (key x) then y :: insert_by x l'
      else x :: y :: l'
  end.

Definition sort_by (l : list A) : list A := foldr insert_by [] l.
End Sort.

Definition sorted (l : list string) : list string := sort_by id l.

End Py.

(** ** The script *)

(** A line feed; [print] ends what it prints with one. *)
Definition LF : string := String "010" "".

(** *** Data *)

(** A pin of the manifest: a JSON object whose fields may be missing. *)
Record pin := Pin {
  pin_identity : option string;
  pin_location : option string;
  pin_state : option (gmap string string)
}.

(** The decoded manifest: a JSON object that may have a ["pins"] array. *)
Record document := Document { doc_pins : option (list pin) }.

(** The dict built for every dependency; [path] is [None] or a directory. *)
Record entry := Entry {
  name : string;
  repo : string;
  version : string;
  path : option string
}.

(** What the script reads from its surroundings. *)
Record World := {
  (** the directory above the script, an absolute path *)
  ROOT : string;
  (** [os.path.isfile] and [os.path.isdir] *)
  isfile : string -> bool;
  isdir : string -> bool;
  (** what [open(path).read()] returns, undecodable bytes dropped *)
  file_text : string -> string;
  (** what [json.load] yields on the manifest; [None] when it raises *)
  manifest_json : option document;
  (** the standard output of [git args] run in [cwd] when it exits with
      status 0; [None] when [subprocess.run] raises for any reason *)
  git : list string -> string -> option string
}.

(** How a computation of the script ends. *)
Inductive result (A : Type) : Type :=
| Return (a : A)
| Exit (status : Z) (stderr : string)
| Raise.
Arguments Return {A} a.
Arguments Exit {A} status stderr.
Arguments Raise {A}.

#[global] Instance result_ret : MRet result := fun A a => Return a.

#[global] Instance result_bind : MBind result := fun A B k m =>
  match m with
  | Return a => k a
  | Exit st err => Exit st err
  | Raise => Raise
  end.

(** What a run that reaches the end leaves behind: the text written to
    [OUTPUT_PATH] and the text printed to standard output. *)
Record report := Report { written : string; stdout : string }.

(** *** Constants *)

Definition RESOLVED_PATH (w : World) : string :=
  Py.path_join (ROOT w) ["Package.resolved"].

Definition OUTPUT_PATH (w : World) : string :=
  Py.path_join (ROOT w) ["THIRD-PARTY-NOTICES.md"].

Definition LICENSE_FILES : list string :=
  [ "LICENSE"; "LICENSE.txt"; "LICENSE.md";
    "COPYING"; "COPYING.txt"; "COPYING.md";
    "LICENCE"; "LICENCE.txt"; "LICENCE.md" ].

Definition NOTICE_FILES : list string := [ "NOTICE"; "NOTICE.txt"; "NOTICE.md" ].

(** *** Functions *)

(** [run_git(args, cwd)]: the [try] turns every failure into [""]. *)
Definition run_git (w : World) (args : list string) (cwd : string) : string :=
  match git w args cwd with
  | Some out => Py.strip out
  | None => ""
  end.

(** [repo_url_for_path(path)] *)
Definition repo_url_for_path (w : World) (path : string) : option string :=
  let url := run_git w ["config"; "--get"; "remote.origin.url"] path in
  if Py.truthy url then Some url else None.

(** [read_file(path)] *)
Definition read_file (w : World) (path : string) : string :=
  Py.strip (file_text w path).

(** [pick_first_existing(base_dir, names)] *)
Fixpoint pick_first_existing (w : World) (base_dir : string)
    (names : list string) : option string :=
  match names with
  | [] => None
  | name :: names' =>
      let candidate := Py.path_join base_dir [name] in
      if isfile w candidate then Some candidate
      else pick_first_existing w base_dir names'
  end.

(** [checkout_dir_for_pin(identity, location)] *)
Definition checkouts_path (w : World) (dir : string) : string :=
  Py.path_join (ROOT w) [".build"; "checkouts"; dir].

Definition location_base (location : string) : string :=
  let base := Py.basename (Py.rstrip_by (Ascii.eqb "/") location) in
  if Py.endswith base ".git" then Py.drop_last 4 base else base.

Definition checkout_candidates (w : World) (identity location : string)
    : list string :=
  let candidates := [] in
  let candidates :=
    if Py.truthy identity
    then candidates ++ [checkouts_path w identity]
    else candidates in
  if Py.truthy location
  then candidates ++ [checkouts_path w (location_base location)]
  else candidates.

Fixpoint first_dir (w : World) (candidates : list string) : option string :=
  match candidates with
  | [] => None
  | c :: rest => if isdir w c then Some c else first_dir w rest
  end.

Definition checkout_dir_for_pin (w : World) (identity location : string)
    : option string :=
  first_dir w (checkout_candidates w identity location).

(** [k in state] and [state[k]] on the state dict; every subscript of
    [version_label] is guarded by the membership test before it. *)
Definition has_key (k : string) (state : gmap string string) : bool :=
  bool_decide (is_Some (state !! k)).

Definition item (k : string) (state : gmap string string) : string :=
  default "" (state !! k).

(** [version_label(state)]; a dict is falsy when it is empty. *)
Definition version_label (state : gmap string string) : string :=
  if bool_decide (state = ∅) then "unknown"
  else if has_key "version" state then item "version" state
  else if has_key "branch" state && has_key "revision" state
       then item "branch" state +:+ "@" +:+ Py.take 7 (item "revision" state)
  else if has_key "revision" state then Py.take 7 (item "revision" state)
  else "unknown".

(** [load_pins()] *)
Definition load_pins (w : World) : result (list pin) :=
  if negb (isfile w (RESOLVED_PATH w))
  then Exit 1 ("ERROR: Package.resolved not found." +:+ LF)
  else
    match manifest_json w with
    | None => Raise
    | Some data => Return (default [] (doc_pins data))
    end.

(** *** [main()] *)

(** The dict appended for one pin. *)
Definition entry_of_pin (w : World) (p : pin) : entry :=
  let identity := default "" (pin_identity p) in
  let location := default "" (pin_location p) in
  let state := default ∅ (pin_state p) in
  {| name := identity;
     repo := location;
     version := version_label state;
     path := checkout_dir_for_pin w identity location |}.

(** The local dependency, appended after the pins. *)
Definition swiftterm_entries (w : World) : list entry :=
  let swiftterm_path := Py.path_join (ROOT w) ["SwiftTerm"] in
  if isdir w swiftterm_path
  then [ {| name := "SwiftTerm";
            repo := default "https://github.com/migueldeicaza/SwiftTerm"
                      (repo_url_for_path w swiftterm_path);
            version :=
              Py.or_else (run_git w ["describe"; "--tags"; "--abbrev=0"] swiftterm_path)
                (Py.or_else (run_git w ["rev-parse"; "--short"; "HEAD"] swiftterm_path)
                   "local");
            path := Some swiftterm_path |} ]
  else [].

Definition collect_entries (w : World) (pins : list pin) : list entry :=
  (entry_of_pin w <$> pins) ++ swiftterm_entries w.

(** The key of the deduplication and of the sort. *)
Definition entry_key (e : entry) : string := Py.lower (name e).

(** The loop over [entries] with the set [seen]. *)
Fixpoint dedupe_from (seen : gset string) (entries : list entry) : list entry :=
  match entries with
  | [] => []
  | e :: rest =>
      let key := entry_key e in
      if bool_decide (key ∈ seen) then dedupe_from seen rest
      else e :: dedupe_from ({[ key ]} ∪ seen) rest
  end.

Definition dedupe (entries : list entry) : list entry := dedupe_from ∅ entries.

Definition unique_entries (entries : list entry) : list entry :=
  Py.sort_by entry_key (dedupe entries).

(** One turn of the rendering loop, in the order of the source. *)
Definition display_name (e : entry) : string := Py.or_else (name e) "unknown".
Definition display_repo (e : entry) : string := Py.or_else (repo e) "unknown".
Definition display_version (e : entry) : string := Py.or_else (version e) "unknown".

Definition usable_dir (w : World) (e : entry) : option string :=
  match path e with
  | Some p => if Py.truthy p && isdir w p then Some p else None
  | None => None
  end.

Definition license_path (w : World) (e : entry) : option string :=
  p ← usable_dir w e; pick_first_existing w p LICENSE_FILES.

Definition notice_path (w : World) (e : entry) : option string :=
  p ← usable_dir w e; pick_first_existing w p NOTICE_FILES.

Definition header (w : World) (e : entry) : list string :=
  [ display_name e +:+ " (" +:+ display_version e +:+ ")";
    "Repository: " +:+ display_repo e ] ++
  match license_path w e with
  | Some lp => [ "License file: " +:+ Py.basename lp ]
  | None => [ "License file: NOT FOUND" ]
  end.

Definition body (w : World) (e : entry) : list string :=
  match license_path w e with
  | Some lp => [ read_file w lp ]
  | None => []
  end ++
  match notice_path w e with
  | Some np => [ ""; "NOTICE (" +:+ Py.basename np +:+ ")"; read_file w np ]
  | None => []
  end.

Definition section_of (w : World) (e : entry) : string :=
  Py.strip (Py.join LF (header w e ++ [""] ++ body w e)).

Definition render_step (w : World) (acc : list string * list string) (e : entry)
    : list string * list string :=
  let '(missing, sections) := acc in
  let missing :=
    match license_path w e with
    | Some _ => missing
    | None => missing ++ [display_name e]
    end in
  (missing, sections ++ [section_of w e]).

Definition render (w : World) (entries : list entry) : list string * list string :=
  fold_left (render_step w) entries ([], []).

Definition SEPARATOR : string := LF +:+ LF +:+ "---" +:+ LF +:+ LF.

Definition PREAMBLE : list string :=
  [ "Third-Party Notices";
    "";
    "This document lists third-party components included in CodMate distributions, along with their licenses and attributions. The original license texts are reproduced or referenced below.";
    "";
    "If you distribute CodMate binaries, keep this file together with `LICENSE`.";
    "";
    "---";
    "" ].

Definition document_text (sections : list string) : string :=
  let out := PREAMBLE ++ [Py.join SEPARATOR sections] in
  Py.strip (Py.join LF out) +:+ LF.

Definition main (w : World) : result report :=
  pins ← load_pins w;
  let entries := collect_entries w pins in
  let unique := unique_entries entries in
  let '(missing, sections) := render w unique in
  let content := document_text sections in
  match missing with
  | _ :: _ =>
      Exit 1 ("ERROR: Missing license files for:" +:+ " "
              +:+ Py.join ", " (Py.sorted missing) +:+ LF
              +:+ "Hint: run `swift package resolve` and retry." +:+ LF)
  | [] =>
      Return {| written := content;
                stdout := "[ok] Updated " +:+ OUTPUT_PATH w +:+ LF |}
  end.

(** ** Notions the specification uses *)

(** The first entry of a sequence whose lowercased name is [k]. *)
Definition first_with_key (k : string) (entries : list entry) : option entry :=
  List.find (fun e => String.eqb (entry_key e) k) entries.

(** An entry has no resolved directory, or none of the license file names
    is a file in it. *)
Definition lacks_license (w : World) (e : entry) : bool :=
  match path e with
  | None => true
  | Some d =>
      forallb (fun n => negb (isfile w (Py.path_join d [n]))) LICENSE_FILES
  end.

(** The directory of an entry that the pipeline built is non-empty and
    exists. *)
Definition resolved (w : World) (e : entry) : Prop :=
  ∀ d, path e = Some d → Py.truthy d = true ∧ isdir w d = true.

(** The first line of a section as the specification gives it. *)
Definition header_line (e : entry) : string :=
  display_name e +:+ " (" +:+ display_version e +:+ ")".

(** Title, preamble, reminder and the rule under them. *)
Definition FRONT_MATTER : string := Py.join LF (List.firstn 7 PREAMBLE).

(** The names printed for the entries that lack a license. *)
Definition offending (w : World) (entries : list entry) : list string :=
  display_name <$> filter (λ e, lacks_license w e = true) entries.

(** The two lines printed before the second fatal exit. *)
Definition missing_message (names : list string) : string :=
  "ERROR: Missing license files for: " +:+ Py.join ", " names +:+ LF
  +:+ "Hint: run `swift package resolve` and retry." +:+ LF.


(** A character occurs in a string. *)
Fixpoint has_char (c : ascii) (s : string) : bool :=
  match s with
  | "" => false
  | String c' s' => Ascii.eqb c' c || has_char c s'
  end.

(** *** Sample surroundings *)

Definition sample_files : list string :=
  [ "/r/Package.resolved";
    "/r/.build/checkouts/a/LICENSE";
    "/r/.build/checkouts/b/COPYING";
    "/r/.build/checkouts/b/NOTICE.md" ].

Definition sample_pins : list pin :=
  [ Pin (Some "B") (Some "https://x/b.git") (Some {[ "version" := "1.2.3" ]});
    Pin (Some "a") (Some "https://x/a.git/")
      (Some {[ "branch" := "main"; "revision" := "abcdef1234567" ]});
    Pin (Some "b") None None ].

(** Two checked-out pins with their licenses, no local dependency. *)
Definition sample_world : World :=
  {| ROOT := "/r";
     isfile := fun p => bool_decide (p ∈ sample_files);
     isdir := fun p =>
       bool_decide (p ∈ ["/r/.build/checkouts/a"; "/r/.build/checkouts/b"]);
     file_text := fun p => " text of " +:+ p +:+ LF;
     manifest_json := Some (Document (Some sample_pins));
     git := fun _ _ => None |}.

(** No manifest at all. *)
Definition bare_world : World :=
  {| ROOT := "/r";
     isfile := fun _ => false;
     isdir := fun _ => false;
     file_text := fun _ => "";
     manifest_json := None;
     git := fun _ _ => None |}.

(** A manifest without the ["pins"] key. *)
Definition pinless_world : World :=
  {| ROOT := "/r";
     isfile := fun p => String.eqb p "/r/Package.resolved";
     isdir := fun _ => false;
     file_text := fun _ => "";
     manifest_json := Some (Document None);
     git := fun _ _ => None |}.

(** The local dependency is present, and the manifest pins it too. *)
Definition shadow_pins : list pin :=
  [ Pin (Some "swiftterm") (Some "https://x/SwiftTerm")
      (Some {[ "version" := "1.0.0" ]}) ].

Definition shadow_world : World :=
  {| ROOT := "/r";
     isfile := fun p =>
       bool_decide (p ∈ ["/r/Package.resolved";
                         "/r/.build/checkouts/swiftterm/LICENSE";
                         "/r/SwiftTerm/LICENSE"]);
     isdir := fun p =>
       bool_decide (p ∈ ["/r/.build/checkouts/swiftterm"; "/r/SwiftTerm"]);
     file_text := fun p => "license " +:+ p;
     manifest_json := Some (Document (Some shadow_pins));
     git := fun _ _ => Some ("v9" +:+ LF) |}.


(** Surroundings built from finite lists of files and directories; every
    file holds a line naming it, [git] is not available. *)
Definition world_of (files dirs : list string) (manifest : option document)
    : World :=
  {| ROOT := "/r";
     isfile := fun p => bool_decide (p ∈ files);
     isdir := fun p => bool_decide (p ∈ dirs);
     file_text := fun p => " text of " +:+ p +:+ LF;
     manifest_json := manifest;
     git := fun _ _ => None |}.

(** The pin ["c"] is not checked out, the pin ["d"] has no license file. *)
Definition lacking_pins : list pin :=
  [ Pin (Some "d") None None; Pin (Some "a") None None; Pin (Some "c") None None ].

Definition lacking_world : World :=
  world_of ["/r/Package.resolved"; "/r/.build/checkouts/a/LICENSE"]
           ["/r/.build/checkouts/a"; "/r/.build/checkouts/d"]
           (Some (Document (Some lacking_pins))).

(** One pin whose identity starts with a space, checked out with its
    license. *)
Definition spaced_pins : list pin :=
  [ Pin (Some " a") (Some "https://x/a") (Some {[ "version" := "1.0" ]}) ].

Definition spaced_world : World :=
  world_of ["/r/Package.resolved"; "/r/.build/checkouts/ a/LICENSE"]
           ["/r/.build/checkouts/ a"]
           (Some (Document (Some spaced_pins))).


(** The surroundings after [main] wrote [text] to [OUTPUT_PATH]: the path
    is a file and holds the text; nothing else changes. *)
Definition after_write (w : World) (text : string) : World :=
  {| ROOT := ROOT w;
     isfile := fun p => if String.eqb p (OUTPUT_PATH w) then true else isfile w p;
     isdir := isdir w;
     file_text := fun p =>
       if String.eqb p (OUTPUT_PATH w) then text else file_text w p;
     manifest_json := manifest_json w;
     git := git w |}.

(** One run: how [main] ends, and the surroundings it leaves. *)
Definition run (w : World) : result report * World :=
  match main w with
  | Return r => (Return r, after_write w (written r))
  | out => (out, w)
  end.

(** Two surroundings hold the same inputs: they agree on everything but
    the output file, its presence and its contents. *)
Definition same_inputs (w1 w2 : World) : Prop :=
  ROOT w1 = ROOT w2
  ∧ (∀ p, p ≠ OUTPUT_PATH w1 → isfile w1 p = isfile w2 p)
  ∧ (∀ p, isdir w1 p = isdir w2 p)
  ∧ (∀ p, p ≠ OUTPUT_PATH w1 → file_text w1 p = file_text w2 p)
  ∧ manifest_json w1 = manifest_json w2
  ∧ (∀ args cwd, git w1 args cwd = git w2 args cwd).

(** A file name that has no slash and is not the name of the output. *)
Definition input_name (n : string) : bool :=
  negb (has_char "/" n) && negb (String.eqb n "THIRD-PARTY-NOTICES.md").

(** *** Notions for the remaining functions *)

(** Every character of a string is whitespace. *)
Fixpoint all_space (s : string) : bool :=
  match s with
  | "" => true
  | String c s' => Py.isspace c && all_space s'
  end.

(** The last character of a string. *)
Fixpoint last_char (s : string) : option ascii :=
  match s with
  | "" => None
  | String c "" => Some c
  | String _ s' => last_char s'
  end.

(** The first character of a string. *)
Definition first_char (s : string) : option ascii :=
  match s with
  | "" => None
  | String c _ => Some c
  end.

(** The checkouts root. *)
Definition checkouts_root (w : World) : string :=
  Py.path_join (ROOT w) [".build"; "checkouts"].

(** The directory of the local dependency. *)
Definition swiftterm_path (w : World) : string :=
  Py.path_join (ROOT w) ["SwiftTerm"].

(** The local dependency with its license, beside a pin of another name;
    [git] prints a tag followed by a line feed for [describe] only. *)
Definition local_pins : list pin :=
  [ Pin (Some "zlib") (Some "https://x/zlib.git") (Some {[ "version" := "2.0" ]}) ].

Definition local_world : World :=
  {| ROOT := "/r";
     isfile := fun p =>
       bool_decide (p ∈ ["/r/Package.resolved";
                         "/r/.build/checkouts/zlib/COPYING";
                         "/r/SwiftTerm/LICENSE.md";
                         "/r/SwiftTerm/LICENSE"]);
     isdir := fun p =>
       bool_decide (p ∈ ["/r/.build/checkouts/zlib"; "/r/SwiftTerm"]);
     file_text := fun p => "license " +:+ p;
     manifest_json := Some (Document (Some local_pins));
     git := fun args _ =>
       match args with
       | "describe" :: _ => Some ("v1.2" +:+ LF)
       | _ => None
       end |}.

(** ** Facts about the string primitives *)

Lemma ltb_false_le (a b : string) : String.ltb a b = false → (b ≤ a)%string.
Proof.
  unfold String.ltb, String.le, String.leb. intros H.
  rewrite String.compare_antisym.
  destruct (String.compare a b); simpl; try done.
Qed.

Lemma ltb_true_le (a b : string) : String.ltb a b = true → (a ≤ b)%string.
Proof.
  unfold String.ltb, String.le, String.leb.
  destruct (String.compare a b); simpl; done.
Qed.

Section SortFacts.
Context {A : Type} (key : A → string).

Let le_key (a b : A) : Prop := (key a ≤ key b)%string.

Lemma insert_by_Permutation x l : Py.insert_by key x l ≡ₚ x :: l.
Proof.
  induction l as [|y l IH]; simpl; [done|].
  destruct (String.ltb (key y) (key x)); [|done].
  rewrite IH. apply Permutation_swap.
Qed.

Lemma sort_by_Permutation l : Py.sort_by key l ≡ₚ l.
Proof.
  induction l as [|x l IH]; simpl; [done|].
  rewrite insert_by_Permutation. by rewrite IH.
Qed.

Lemma insert_by_sorted x l :
  StronglySorted le_key l → StronglySorted le_key (Py.insert_by key x l).
Proof.
  induction l as [|y l IH]; simpl; intros Hs.
  - repeat constructor.
  - apply StronglySorted_cons in Hs as [Hy Hl].
    destruct (String.ltb (key y) (key x)) eqn:Hlt.
    + apply StronglySorted_cons. split; [|by apply IH].
      rewrite insert_by_Permutation. constructor; [|done].
      by apply ltb_true_le.
    + apply ltb_false_le in Hlt.
      apply StronglySorted_cons. split.
      * constructor; [done|].
        eapply Forall_impl; [exact Hy|]. intros z Hz.
        unfold le_key in *. by etrans.
      * by apply StronglySorted_cons.
Qed.

Lemma sort_by_sorted l : StronglySorted le_key (Py.sort_by key l).
Proof.
  induction l as [|x l IH]; simpl; [constructor|].
  by apply insert_by_sorted.
Qed.

Lemma elem_of_sort_by x l : x ∈ Py.sort_by key l ↔ x ∈ l.
Proof. by rewrite sort_by_Permutation. Qed.
End SortFacts.

(** ** The version label *)

Lemma has_key_Some k (state : gmap string string) v :
  state !! k = Some v → has_key k state = true ∧ item k state = v.
Proof.
  intros H. unfold has_key, item. rewrite H. split; [|done].
  apply bool_decide_eq_true. by eexists.
Qed.

Lemma has_key_None k (state : gmap string string) :
  state !! k = None → has_key k state = false.
Proof.
  intros H. unfold has_key. rewrite H.
  apply bool_decide_eq_false. by intros [? ?].
Qed.

(** C2. The version label is a total function of the state dict, given by
    the four-way priority: the ["version"] field when the key is present;
    else the branch, an at sign and the first seven characters of the
    revision when both keys are present; else the first seven characters of
    the revision when that key is present; else ["unknown"], which is also
    the label of the empty state and of a pin without a state. *)
Theorem version_label_priority (state : gmap string string) :
  version_label state =
    match state !! "version", state !! "branch", state !! "revision" with
    | Some v, _, _ => v
    | None, Some b, Some r => b +:+ "@" +:+ Py.take 7 r
    | None, None, Some r => Py.take 7 r
    | None, _, None => "unknown"
    end
  ∧ version_label ∅ = "unknown"
  ∧ (∀ w identity location,
       version (entry_of_pin w (Pin identity location None)) = "unknown")
  ∧ version_label {[ "version" := "1.2.3" ]} = "1.2.3"
  ∧ version_label {[ "branch" := "main"; "revision" := "abcdef1234567" ]}
    = "main@abcdef1"
  ∧ version_label {[ "revision" := "abcdef1234567" ]} = "abcdef1".
Proof.
  split; [|by vm_compute].
  unfold version_label. case_bool_decide as Hempty.
  - subst state. by rewrite !lookup_empty.
  - destruct (state !! "version") as [v|] eqn:Hv.
    { by destruct (has_key_Some _ _ _ Hv) as [-> ->]. }
    rewrite (has_key_None _ _ Hv).
    destruct (state !! "branch") as [b|] eqn:Hb;
      destruct (state !! "revision") as [r|] eqn:Hr;
      repeat match goal with
        | H : _ !! _ = Some _ |- _ =>
            destruct (has_key_Some _ _ _ H) as [-> ->]; clear H
        | H : _ !! _ = None |- _ => rewrite (has_key_None _ _ H); clear H
        end; done.
Qed.

(** ** The manifest loader *)

(** C6. When the manifest is not a file the loader prints its message to
    standard error and exits with status 1; when it is a file and decodes,
    the loader returns the array under ["pins"], or the empty sequence when
    the document has no such key. *)
Theorem load_pins_contract (w : World) :
  (isfile w (RESOLVED_PATH w) = false →
     load_pins w = Exit 1 ("ERROR: Package.resolved not found." +:+ LF)
     ∧ (1 ≠ 0)%Z)
  ∧ (∀ pins, isfile w (RESOLVED_PATH w) = true →
       manifest_json w = Some (Document (Some pins)) →
       load_pins w = Return pins)
  ∧ (isfile w (RESOLVED_PATH w) = true →
       manifest_json w = Some (Document None) →
       load_pins w = Return []).
Proof.
  unfold load_pins. repeat split.
  - by rewrite H.
  - done.
  - intros pins -> ->. done.
  - intros -> ->. done.
Qed.

(** ** Deduplication and sorting *)

Lemma first_with_key_Some k entries e :
  first_with_key k entries = Some e → e ∈ entries ∧ entry_key e = k.
Proof.
  unfold first_with_key. intros H. apply find_some in H as [Hin Hk].
  split; [by apply list_elem_of_In|]. by apply String.eqb_eq.
Qed.

Lemma first_with_key_is_Some k entries :
  k ∈ entry_key <$> entries → is_Some (first_with_key k entries).
Proof.
  unfold first_with_key. induction entries as [|x l IH]; simpl.
  - by intros ?%elem_of_nil.
  - intros [->|Hin]%elem_of_cons.
    + rewrite String.eqb_refl. by eexists.
    + destruct (String.eqb (entry_key x) k); [by eexists|by apply IH].
Qed.

Lemma elem_of_dedupe_from seen entries e :
  e ∈ dedupe_from seen entries ↔
  (entry_key e ∉ seen) ∧ first_with_key (entry_key e) entries = Some e.
Proof.
  revert seen. induction entries as [|x l IH]; intros seen; simpl.
  - split; [by intros ?%elem_of_nil|by intros [_ ?]].
  - unfold first_with_key; simpl. fold (first_with_key (entry_key e) l).
    destruct (String.eqb_spec (entry_key x) (entry_key e)) as [Heq|Hne];
      case_bool_decide as Hseen.
    + rewrite IH, <- Heq. naive_solver.
    + rewrite elem_of_cons, IH, <- Heq. split.
      * intros [->|[Hn _]]; [done|]. set_solver.
      * intros [_ [= ->]]. by left.
    + by rewrite IH.
    + rewrite elem_of_cons, IH. split.
      * intros [->|[Hn ?]]; [done|]. split; [set_solver|done].
      * intros [Hn ?]. right. split; [set_solver|done].
Qed.

Lemma dedupe_from_NoDup seen entries :
  NoDup (entry_key <$> dedupe_from seen entries).
Proof.
  revert seen. induction entries as [|x l IH]; intros seen; simpl.
  - constructor.
  - case_bool_decide as Hseen; [apply IH|].
    rewrite fmap_cons. constructor; [|apply IH].
    intros (e & Hk & He)%list_elem_of_fmap.
    apply elem_of_dedupe_from in He as [Hn _]. set_solver.
Qed.

Lemma dedupe_from_app seen l1 l2 :
  dedupe_from seen (l1 ++ l2) =
  dedupe_from seen l1
    ++ dedupe_from (list_to_set (entry_key <$> l1) ∪ seen) l2.
Proof.
  revert seen. induction l1 as [|x l IH]; intros seen; simpl.
  - f_equal. set_solver.
  - case_bool_decide as Hseen.
    + rewrite IH. do 2 f_equal. set_solver.
    + simpl. rewrite IH. do 3 f_equal. set_solver.
Qed.

Lemma dedupe_from_all_seen seen l :
  (∀ e, e ∈ l → entry_key e ∈ seen) → dedupe_from seen l = [].
Proof.
  induction l as [|x l IH]; simpl; [done|]. intros H.
  rewrite bool_decide_eq_true_2 by (apply H; left).
  apply IH. intros e He. apply H. by right.
Qed.

Lemma unique_entries_members entries e :
  e ∈ unique_entries entries ↔ first_with_key (entry_key e) entries = Some e.
Proof.
  unfold unique_entries, dedupe.
  rewrite elem_of_sort_by, elem_of_dedupe_from. set_solver.
Qed.

(** C3. After the deduplicate-and-sort stage the keys (lowercased names)
    are pairwise distinct, every key of the input is the key of an output
    entry, an entry is in the output exactly when it is the first entry of
    the input with its key, and the keys are in non-decreasing order. *)
Theorem unique_entries_invariant (entries : list entry) :
  NoDup (entry_key <$> unique_entries entries)
  ∧ (∀ k, k ∈ entry_key <$> unique_entries entries ↔ k ∈ entry_key <$> entries)
  ∧ (∀ e, e ∈ unique_entries entries ↔
          first_with_key (entry_key e) entries = Some e)
  ∧ StronglySorted (λ a b, (entry_key a ≤ entry_key b)%string)
      (unique_entries entries).
Proof.
  pose proof (unique_entries_members entries) as Hmem.
  split; [|split; [|split]].
  - unfold unique_entries, dedupe.
    rewrite (sort_by_Permutation entry_key). apply dedupe_from_NoDup.
  - intros k. rewrite !list_elem_of_fmap. split.
    + intros (e & -> & He). exists e. split; [done|].
      by apply Hmem, first_with_key_Some in He as [? _].
    + intros (e & -> & He).
      destruct (first_with_key_is_Some (entry_key e) entries) as [e' He'].
      { apply list_elem_of_fmap. eauto. }
      exists e'. pose proof (first_with_key_Some _ _ _ He') as [_ Hk].
      split; [done|]. apply Hmem. by rewrite Hk.
  - exact Hmem.
  - apply sort_by_sorted.
Qed.

(** C5. The entry of the local dependency comes after the entries of the
    manifest, so when some pin has the identity ["SwiftTerm"] up to case,
    the output is the one the manifest entries alone produce: the entry
    kept under that key is the first pin entry with it, and no other entry
    of the output has that key. *)
Theorem manifest_pin_shadows_local (w : World) (pins : list pin)
    (Hpin : ∃ p, p ∈ pins ∧
              Py.lower (default "" (pin_identity p)) = Py.lower "SwiftTerm") :
  collect_entries w pins = (entry_of_pin w <$> pins) ++ swiftterm_entries w
  ∧ unique_entries (collect_entries w pins)
    = unique_entries (entry_of_pin w <$> pins)
  ∧ ∃ e, first_with_key (Py.lower "SwiftTerm") (entry_of_pin w <$> pins) = Some e
       ∧ e ∈ unique_entries (collect_entries w pins)
       ∧ ∀ e', e' ∈ unique_entries (collect_entries w pins) →
               entry_key e' = Py.lower "SwiftTerm" → e' = e.
Proof.
  destruct Hpin as (p & Hp & Hid).
  assert (Hkey : Py.lower "SwiftTerm" ∈ entry_key <$> (entry_of_pin w <$> pins)).
  { apply list_elem_of_fmap. exists (entry_of_pin w p). split; [by rewrite <- Hid|].
    by apply list_elem_of_fmap_2. }
  assert (Hsame : unique_entries (collect_entries w pins)
                  = unique_entries (entry_of_pin w <$> pins)).
  { unfold unique_entries, dedupe, collect_entries. f_equal.
    rewrite dedupe_from_app, (dedupe_from_all_seen _ (swiftterm_entries w));
      [by rewrite app_nil_r|].
    intros e. unfold swiftterm_entries.
    destruct (isdir w _); [|by intros ?%elem_of_nil].
    intros ->%list_elem_of_singleton. unfold entry_key at 1; simpl name.
    apply elem_of_union_l, elem_of_list_to_set, Hkey. }
  split; [done|]. split; [done|].
  destruct (first_with_key_is_Some _ _ Hkey) as [e He]. exists e.
  pose proof (unique_entries_members (entry_of_pin w <$> pins)) as Hmem.
  pose proof (first_with_key_Some _ _ _ He) as [_ Hk].
  rewrite Hsame. split; [done|]. split.
  - apply Hmem. by rewrite Hk.
  - intros e' He' Hk'. apply Hmem in He'. rewrite Hk' in He'. congruence.
Qed.

Lemma manifest_pin_shadows_local_witness :
  load_pins shadow_world = Return shadow_pins
  ∧ swiftterm_entries shadow_world ≠ []
  ∧ unique_entries (collect_entries shadow_world shadow_pins)
    = unique_entries (entry_of_pin shadow_world <$> shadow_pins).
Proof.
  split; [by vm_compute|]. split; [by vm_compute|].
  apply (manifest_pin_shadows_local shadow_world shadow_pins).
  eexists. split; [apply list_elem_of_here|]. by vm_compute.
Defined.

(** ** The checkout directory resolver *)

Lemma append_assoc (a b c : string) : (a +:+ b) +:+ c = a +:+ b +:+ c.
Proof. induction a as [|x a IH]; simpl; [done|by rewrite IH]. Qed.




Lemma endswith_unfold (s suf : string) :
  Py.endswith s suf =
    if String.eqb s suf then true
    else match s with "" => false | String _ s' => Py.endswith s' suf end.
Proof. by destruct s. Qed.


Lemma basename_go_no_slash (cur s : string) :
  has_char "/" s = false → Py.basename_go cur s = cur.
Proof.
  revert cur. induction s as [|c s IH]; intros cur; simpl; [done|].
  destruct (Ascii.eqb c "/"); [done|]. apply IH.
Qed.

Lemma basename_append (dir leaf : string) :
  has_char "/" leaf = false → Py.basename (dir +:+ "/" +:+ leaf) = leaf.
Proof.
  intros Hleaf. unfold Py.basename.
  generalize (dir +:+ "/" +:+ leaf) at 1. induction dir as [|c d IH]; intros cur.
  - simpl. by apply basename_go_no_slash.
  - simpl. destruct (Ascii.eqb c "/"); apply IH.
Qed.

Lemma rstrip_by_app_keep (p : ascii → bool) (a b : string) :
  Py.rstrip_by p b ≠ "" → Py.rstrip_by p (a +:+ b) = a +:+ Py.rstrip_by p b.
Proof.
  intros Hb. induction a as [|c a IH]; simpl; [done|].
  rewrite IH. destruct (a +:+ Py.rstrip_by p b) eqn:E; [|done].
  destruct a; simpl in E; [done|discriminate].
Qed.



Lemma first_dir_Some (w : World) (candidates : list string) (d : string) :
  first_dir w candidates = Some d → d ∈ candidates ∧ isdir w d = true.
Proof.
  induction candidates as [|c l IH]; simpl; [done|].
  destruct (isdir w c) eqn:Hc.
  - intros [= <-]. split; [left|done].
  - intros [? ?]%IH. split; [by right|done].
Qed.







(** ** The rendering loop and the two ways [main] ends *)

Lemma render_from (w : World) (entries : list entry) (missing sections : list string) :
  fold_left (render_step w) entries (missing, sections) =
  (missing ++ (display_name <$> filter (λ e, license_path w e = None) entries),
   sections ++ (section_of w <$> entries)).
Proof.
  revert missing sections. induction entries as [|e l IH]; intros missing sections.
  - simpl. by rewrite !app_nil_r.
  - simpl fold_left.
    change (render_step w (missing, sections) e)
      with (match license_path w e with
            | Some _ => missing
            | None => missing ++ [display_name e]
            end, sections ++ [section_of w e]).
    rewrite IH, filter_cons, fmap_cons, <- !app_assoc.
    destruct (license_path w e) as [lp|] eqn:Hlp.
    + by rewrite decide_False.
    + rewrite decide_True by done. by rewrite fmap_cons, <- app_assoc.
Qed.

Lemma render_eq (w : World) (entries : list entry) :
  render w entries =
  (display_name <$> filter (λ e, license_path w e = None) entries,
   section_of w <$> entries).
Proof. unfold render. by rewrite render_from. Qed.

Lemma main_after_load (w : World) (pins : list pin) :
  load_pins w = Return pins →
  main w =
    let unique := unique_entries (collect_entries w pins) in
    match display_name <$> filter (λ e, license_path w e = None) unique with
    | [] => Return {| written := document_text (section_of w <$> unique);
                      stdout := "[ok] Updated " +:+ OUTPUT_PATH w +:+ LF |}
    | missing => Exit 1 (missing_message (Py.sorted missing))
    end.
Proof.
  intros Hload. unfold main. rewrite Hload. simpl. rewrite render_eq.
  by destruct (display_name <$> _).
Qed.

(** Paths built by [os.path.join] from a non-empty part are non-empty. *)
Lemma join2_truthy (p b : string) :
  Py.truthy p || Py.truthy b = true → Py.truthy (Py.join2 p b) = true.
Proof.
  unfold Py.join2, Py.startswith. destruct b as [|c b].
  - rewrite orb_false_r. intros Hp. simpl. rewrite Hp. simpl.
    destruct (Py.endswith p "/"); by destruct p.
  - intros _. destruct (String.prefix "/" (String c b)); [done|].
    destruct (negb (Py.truthy p) || Py.endswith p "/"); by destruct p.
Qed.

Lemma checkouts_path_truthy (w : World) (dir : string) :
  Py.truthy (checkouts_path w dir) = true.
Proof.
  unfold checkouts_path, Py.path_join. simpl.
  apply join2_truthy. rewrite join2_truthy; [done|]. by rewrite orb_true_r.
Qed.

Lemma collect_entries_resolved (w : World) (pins : list pin) (e : entry) :
  e ∈ collect_entries w pins → resolved w e.
Proof.
  unfold collect_entries. intros [Hin|Hin]%elem_of_app d Hd.
  - apply list_elem_of_fmap in Hin as (p & -> & _). simpl in Hd.
    apply first_dir_Some in Hd as [Hc Hdir]. split; [|done].
    unfold checkout_candidates in Hc.
    destruct (Py.truthy _), (Py.truthy _); simpl in Hc;
      set_unfold; destruct_or?; subst; try done; apply checkouts_path_truthy.
  - unfold swiftterm_entries in Hin.
    destruct (isdir w _) eqn:Hdir; [|by apply elem_of_nil in Hin].
    apply list_elem_of_singleton in Hin as ->. simpl in Hd. injection Hd as <-.
    split; [|done]. apply join2_truthy. by rewrite orb_true_r.
Qed.

Lemma unique_entries_subset (entries : list entry) (e : entry) :
  e ∈ unique_entries entries → e ∈ entries.
Proof. by intros [? _]%unique_entries_members%first_with_key_Some. Qed.

Lemma pick_first_existing_None (w : World) (base_dir : string) (names : list string) :
  pick_first_existing w base_dir names = None ↔
  forallb (λ n, negb (isfile w (Py.path_join base_dir [n]))) names = true.
Proof.
  induction names as [|n l IH]; simpl; [done|].
  destruct (isfile w _); simpl; [done|apply IH].
Qed.

Lemma license_path_None (w : World) (e : entry) :
  resolved w e → license_path w e = None ↔ lacks_license w e = true.
Proof.
  intros Hres. unfold license_path, usable_dir, lacks_license.
  destruct (path e) as [d|] eqn:Hd; [|done].
  destruct (Hres d Hd) as [-> ->]. cbn [andb mbind option_bind].
  apply pick_first_existing_None.
Qed.

Lemma missing_is_offending (w : World) (entries : list entry) :
  (∀ e, e ∈ entries → resolved w e) →
  display_name <$> filter (λ e, license_path w e = None) entries
  = offending w entries.
Proof.
  intros Hres. unfold offending. f_equal.
  induction entries as [|e l IH]; [done|].
  rewrite !filter_cons, IH by (intros; apply Hres; by right).
  pose proof (license_path_None w e (Hres e ltac:(left))) as Hiff.
  destruct (decide (license_path w e = None)) as [Hn|Hn];
    destruct (decide (lacks_license w e = true)) as [Hl|Hl]; try done.
  - by apply Hiff in Hn.
  - by apply Hiff in Hl.
Qed.

Lemma offending_nil (w : World) (entries : list entry) :
  offending w entries = [] ↔ ∀ e, e ∈ entries → lacks_license w e = false.
Proof.
  unfold offending. induction entries as [|e l IH].
  - split; [by intros _ e ?%elem_of_nil|done].
  - rewrite filter_cons. destruct (lacks_license w e) eqn:Hl.
    + rewrite decide_True by done. split; [done|].
      intros Hall. specialize (Hall e ltac:(left)). congruence.
    + rewrite decide_False by done. rewrite IH. split.
      * intros Hall e' [->|?]%elem_of_cons; auto.
      * intros Hall e' ?. apply Hall. by right.
Qed.

(** C1. In a run that loads its pins and has an entry without a resolved
    directory or without any license file in it, [main] exits with status 1
    after printing the names of those entries, sorted, and the hint to
    standard error, and writes nothing; a run that writes the output file
    loaded its pins and found no such entry. *)
Theorem missing_license_is_fatal (w : World) :
  (∀ pins, load_pins w = Return pins →
     let unique := unique_entries (collect_entries w pins) in
     (∃ e, e ∈ unique ∧ lacks_license w e = true) →
     main w = Exit 1 (missing_message (Py.sorted (offending w unique)))
     ∧ (1 ≠ 0)%Z
     ∧ Py.sorted (offending w unique) ≡ₚ offending w unique
     ∧ StronglySorted String.le (Py.sorted (offending w unique))
     ∧ (∀ r, main w ≠ Return r))
  ∧ (∀ r, main w = Return r →
       ∃ pins, load_pins w = Return pins
         ∧ offending w (unique_entries (collect_entries w pins)) = []
         ∧ ∀ e, e ∈ unique_entries (collect_entries w pins) →
                lacks_license w e = false).
Proof.
  split.
  - intros pins Hload unique (e & He & Hl).
    assert (Hmain : main w = Exit 1 (missing_message (Py.sorted (offending w unique)))).
    { rewrite (main_after_load w pins Hload). cbv zeta. fold unique.
      rewrite missing_is_offending
        by (intros e' He'; by eapply collect_entries_resolved, unique_entries_subset).
      destruct (offending w unique) eqn:Hoff; [|done].
      pose proof (proj1 (offending_nil w unique) Hoff e He) as Hno.
      by rewrite Hno in Hl. }
    split; [done|]. split; [done|]. split; [apply (sort_by_Permutation id)|].
    split; [apply (sort_by_sorted id)|]. intros r. by rewrite Hmain.
  - intros r Hmain. destruct (load_pins w) as [pins| |] eqn:Hload.
    + exists pins. split; [done|].
      rewrite (main_after_load w pins Hload) in Hmain. cbv zeta in Hmain.
      rewrite missing_is_offending in Hmain
        by (intros e' He'; by eapply collect_entries_resolved, unique_entries_subset).
      destruct (offending w _) eqn:Hoff; [|done].
      split; [done|]. by apply offending_nil.
    + unfold main in Hmain. by rewrite Hload in Hmain.
    + unfold main in Hmain. by rewrite Hload in Hmain.
Qed.

Lemma missing_license_is_fatal_witness :
  load_pins lacking_world = Return lacking_pins
  ∧ main lacking_world
    = Exit 1 ("ERROR: Missing license files for: c, d" +:+ LF
              +:+ "Hint: run `swift package resolve` and retry." +:+ LF).
Proof.
  split; [by vm_compute|].
  destruct (proj1 (missing_license_is_fatal lacking_world) lacking_pins) as [-> _].
  - by vm_compute.
  - exists (entry_of_pin lacking_world (Pin (Some "c") None None)).
    split; [|by vm_compute].
    apply unique_entries_members. by vm_compute.
  - by vm_compute.
Defined.

(** ** Exceptions *)



(** ** Stripping *)

Lemma rstrip_by_cons_kept (p : ascii → bool) (c : ascii) (s : string) :
  p c = false → Py.rstrip_by p (String c s) = String c (Py.rstrip_by p s).
Proof. intros Hc. simpl. rewrite Hc. by destruct (Py.rstrip_by p s). Qed.

Lemma rstrip_by_fixed_tail (p : ascii → bool) (c : ascii) (s : string) :
  Py.rstrip_by p (String c s) = String c s → Py.rstrip_by p s = s.
Proof.
  simpl. destruct (Py.rstrip_by p s) as [|c' r] eqn:Hr.
  - destruct (p c); [done|]. by intros [= <-].
  - by intros [= <-].
Qed.

Lemma rstrip_by_idem (p : ascii → bool) (s : string) :
  Py.rstrip_by p (Py.rstrip_by p s) = Py.rstrip_by p s.
Proof.
  induction s as [|c s IH]; [done|]. simpl.
  destruct (Py.rstrip_by p s) as [|c' r] eqn:Hr.
  - destruct (p c) eqn:Hc; [done|]. simpl. by rewrite Hc.
  - change (Py.rstrip_by p (String c (String c' r))) with
      (match Py.rstrip_by p (String c' r) with
       | "" => if p c then "" else String c ""
       | r' => String c r'
       end).
    by rewrite IH.
Qed.

Lemma rstrip_by_fixed_lstrip (p q : ascii → bool) (s : string) :
  Py.rstrip_by p s = s → Py.rstrip_by p (Py.lstrip_by q s) = Py.lstrip_by q s.
Proof.
  induction s as [|c s IH]; [done|]. intros Hfix.
  change (Py.lstrip_by q (String c s))
    with (if q c then Py.lstrip_by q s else String c s).
  destruct (q c); [|done]. by apply IH, (rstrip_by_fixed_tail p c).
Qed.

Lemma strip_rstrip_fixed (s : string) :
  Py.rstrip_by Py.isspace (Py.strip s) = Py.strip s.
Proof. apply rstrip_by_fixed_lstrip, rstrip_by_idem. Qed.

Lemma lstrip_by_app_keep (p : ascii → bool) (a b : string) :
  Py.lstrip_by p a ≠ "" → Py.lstrip_by p (a +:+ b) = Py.lstrip_by p a +:+ b.
Proof.
  induction a as [|c a IH]; [done|]. simpl. by destruct (p c).
Qed.

Lemma lstrip_by_has_kept (p : ascii → bool) (a b : string) (c : ascii) :
  p c = false → Py.lstrip_by p (a +:+ String c b) ≠ "".
Proof.
  intros Hc. induction a as [|c' a IH]; simpl; [by rewrite Hc|].
  by destruct (p c').
Qed.

Lemma lstrip_by_fixed_app (p : ascii → bool) (a b : string) :
  a ≠ "" → Py.lstrip_by p a = a → Py.lstrip_by p (a +:+ b) = a +:+ b.
Proof.
  intros Ha Hfix. rewrite lstrip_by_app_keep; [by rewrite Hfix|]. by rewrite Hfix.
Qed.

Lemma endswith_LF_rstrip_fixed (s : string) :
  Py.rstrip_by Py.isspace s = s → Py.endswith s LF = false.
Proof.
  induction s as [|c s IH]; [done|]. intros Hfix.
  rewrite endswith_unfold, (IH (rstrip_by_fixed_tail _ _ _ Hfix)).
  destruct (String.eqb_spec (String c s) LF) as [Heq|]; [|done].
  injection Heq as -> ->. done.
Qed.

Lemma join_cons_cons (sep x y : string) (l : list string) :
  Py.join sep (x :: y :: l) = x +:+ sep +:+ Py.join sep (y :: l).
Proof. done. Qed.

Lemma join_rstrip_fixed (p : ascii → bool) (sep : string) (l : list string) :
  l ≠ [] →
  (∀ x, x ∈ l → x ≠ "" ∧ Py.rstrip_by p x = x) →
  Py.join sep l ≠ "" ∧ Py.rstrip_by p (Py.join sep l) = Py.join sep l.
Proof.
  induction l as [|x l IH]; [done|]. intros _ Hall.
  destruct l as [|y l].
  - apply Hall. left.
  - destruct IH as [Hne Hfix]; [done|intros; apply Hall; by right|].
    rewrite join_cons_cons.
    assert (Hx : x +:+ sep +:+ Py.join sep (y :: l) ≠ "").
    { destruct x; simpl; [|done]. destruct sep; simpl; done. }
    split; [done|].
    rewrite <- append_assoc, rstrip_by_app_keep; rewrite Hfix; done.
Qed.

(** ** The shape of a section *)

Lemma section_of_shape (w : World) (e : entry) :
  ∃ rest,
    section_of w e =
      Py.lstrip_by Py.isspace (header_line e) +:+ LF
      +:+ "Repository: " +:+ display_repo e +:+ LF
      +:+ "License file:" +:+ rest.
Proof.
  unfold section_of, header.
  set (l3 := match license_path w e with
             | Some lp => [ "License file: " +:+ Py.basename lp ]
             | None => [ "License file: NOT FOUND" ]
             end).
  assert (∃ x, l3 = ["License file:" +:+ x]) as [x ->].
  { unfold l3. destruct (license_path w e); by eexists (String " " _). }
  set (tail := Py.join LF ("" :: body w e)).
  assert (Hraw : Py.join LF (([header_line e; "Repository: " +:+ display_repo e]
                              ++ ["License file:" +:+ x]) ++ [""] ++ body w e)
                 = header_line e +:+ LF +:+ ("Repository: " +:+ display_repo e) +:+ LF
                   +:+ ("License file:" +:+ x) +:+ LF +:+ tail) by done.
  fold (header_line e). rewrite Hraw. unfold Py.strip.
  set (r3 := Py.rstrip_by Py.isspace (("License file:" +:+ x) +:+ LF +:+ tail)).
  assert (∃ y, r3 = "License file:" +:+ y) as [y Hr3].
  { unfold r3. change ("License file:" +:+ x) with ("License file" +:+ ":" +:+ x).
    rewrite !append_assoc.
    change ("License file" +:+ ":" +:+ x +:+ LF +:+ tail)
      with ("License file" +:+ String ":" (x +:+ LF +:+ tail)).
    rewrite (rstrip_by_app_keep _ "License file")
      by by rewrite rstrip_by_cons_kept.
    rewrite rstrip_by_cons_kept by done. by eexists. }
  exists y.
  replace (header_line e +:+ LF +:+ ("Repository: " +:+ display_repo e) +:+ LF
           +:+ ("License file:" +:+ x) +:+ LF +:+ tail)
    with ((header_line e +:+ LF +:+ ("Repository: " +:+ display_repo e) +:+ LF)
          +:+ (("License file:" +:+ x) +:+ LF +:+ tail))
    by by rewrite !append_assoc.
  rewrite rstrip_by_app_keep; fold r3; [|by rewrite Hr3].
  rewrite Hr3, !append_assoc. apply lstrip_by_app_keep.
  unfold header_line. rewrite <- append_assoc.
  change (" (" +:+ display_version e +:+ ")")
    with (" " +:+ String "(" (display_version e +:+ ")")).
  rewrite <- append_assoc. by apply lstrip_by_has_kept.
Qed.

Lemma section_of_fixed (w : World) (e : entry) :
  section_of w e ≠ "" ∧ Py.rstrip_by Py.isspace (section_of w e) = section_of w e.
Proof.
  split; [|apply strip_rstrip_fixed].
  destruct (section_of_shape w e) as [rest ->].
  by destruct (Py.lstrip_by _ _).
Qed.

Lemma header_line_unstripped (e : entry) :
  Py.lstrip_by Py.isspace (name e) = name e →
  Py.lstrip_by Py.isspace (header_line e) = header_line e.
Proof.
  intros Hname. unfold header_line, display_name, Py.or_else.
  destruct (name e) as [|c n] eqn:Hn; [done|].
  by apply lstrip_by_fixed_app.
Qed.

(** ** The document *)

Lemma document_text_sections (sections : list string) :
  sections ≠ [] →
  (∀ x, x ∈ sections → x ≠ "" ∧ Py.rstrip_by Py.isspace x = x) →
  document_text sections
  = (FRONT_MATTER +:+ LF +:+ LF +:+ Py.join SEPARATOR sections) +:+ LF.
Proof.
  intros Hne Hall.
  destruct (join_rstrip_fixed Py.isspace SEPARATOR sections Hne Hall) as [Hj Hfix].
  unfold document_text. f_equal.
  change (Py.join LF (PREAMBLE ++ [Py.join SEPARATOR sections]))
    with ((FRONT_MATTER +:+ LF +:+ LF) +:+ Py.join SEPARATOR sections).
  unfold Py.strip. rewrite rstrip_by_app_keep by by rewrite Hfix.
  rewrite Hfix, lstrip_by_fixed_app, append_assoc; by vm_compute.
Qed.

(** C7, amended. When every entry has a license file, [main] writes the
    front matter, then, separated from it by a blank line, one section per
    deduplicated entry in sorted order, the sections joined by the rule,
    and one line feed after text that ends in no whitespace.  Every section
    begins with the line ["<name> (<version>)"] stripped of the whitespace
    at its start, so with that line itself when the name does not start
    with whitespace. *)
Theorem document_layout (w : World) (pins : list pin) :
  load_pins w = Return pins →
  let unique := unique_entries (collect_entries w pins) in
  (∀ e, e ∈ unique → lacks_license w e = false) →
  ∃ text,
    main w = Return {| written := text +:+ LF;
                       stdout := "[ok] Updated " +:+ OUTPUT_PATH w +:+ LF |}
    ∧ text = FRONT_MATTER +:+
             match unique with
             | [] => ""
             | _ => LF +:+ LF +:+ Py.join SEPARATOR (section_of w <$> unique)
             end
    ∧ Py.rstrip_by Py.isspace text = text
    ∧ Py.endswith text LF = false
    ∧ ∀ e, e ∈ unique →
        ∃ rest,
          section_of w e
          = Py.lstrip_by Py.isspace (header_line e) +:+ LF +:+ rest
          ∧ (Py.lstrip_by Py.isspace (name e) = name e →
             section_of w e = header_line e +:+ LF +:+ rest).
Proof.
  intros Hload unique Hall.
  assert (Hmain : main w = Return {| written := document_text (section_of w <$> unique);
                                     stdout := "[ok] Updated " +:+ OUTPUT_PATH w +:+ LF |}).
  { rewrite (main_after_load w pins Hload). cbv zeta. fold unique.
    rewrite missing_is_offending
      by (intros e' He'; by eapply collect_entries_resolved, unique_entries_subset).
    by rewrite (proj2 (offending_nil w unique) Hall). }
  assert (Hsec : ∀ x, x ∈ section_of w <$> unique →
                      x ≠ "" ∧ Py.rstrip_by Py.isspace x = x).
  { intros x (e & -> & _)%list_elem_of_fmap. apply section_of_fixed. }
  assert (Htext : ∃ text,
             document_text (section_of w <$> unique) = text +:+ LF
             ∧ text = FRONT_MATTER +:+
                      match unique with
                      | [] => ""
                      | _ => LF +:+ LF +:+ Py.join SEPARATOR (section_of w <$> unique)
                      end
             ∧ Py.rstrip_by Py.isspace text = text).
  { destruct unique as [|e0 l] eqn:Hu.
    - exists FRONT_MATTER. by vm_compute.
    - eexists. split; [by apply document_text_sections|]. split; [done|].
      destruct (join_rstrip_fixed Py.isspace SEPARATOR (section_of w <$> e0 :: l))
        as [Hj Hfix]; [done|done|].
      rewrite <- !append_assoc, rstrip_by_app_keep; by rewrite Hfix. }
  destruct Htext as (text & Hdoc & Htext & Hfix).
  exists text. rewrite Hmain, Hdoc. split; [done|]. split; [done|].
  split; [done|]. split; [by apply endswith_LF_rstrip_fixed|].
  intros e _. destruct (section_of_shape w e) as [rest Hrest].
  eexists. split; [exact Hrest|]. intros Hname.
  by rewrite Hrest, header_line_unstripped.
Qed.

Lemma document_layout_witness :
  load_pins sample_world = Return sample_pins
  ∧ ∃ text,
      main sample_world
      = Return {| written := text +:+ LF;
                  stdout := "[ok] Updated /r/THIRD-PARTY-NOTICES.md" +:+ LF |}
      ∧ Py.endswith text LF = false.
Proof.
  split; [by vm_compute|].
  destruct (document_layout sample_world sample_pins) as (text & Hmain & _ & _ & Hend & _).
  - by vm_compute.
  - intros e He. apply unique_entries_members in He.
    vm_compute in He.
    repeat (match type of He with
            | (if ?b then _ else _) = _ => destruct b eqn:?
            end); by simplify_eq.
  - exists text. split; [exact Hmain|exact Hend].
Defined.

(** C7, as stated: a checked-out pin named [" a"] has its license, the
    document is written, and its section begins with ["a (1.0)"], not with
    the line [" a (1.0)"] made of its name and version. *)
Lemma section_header_loses_leading_space :
  let e := entry_of_pin spaced_world (Pin (Some " a") (Some "https://x/a")
                                        (Some {[ "version" := "1.0" ]})) in
  unique_entries (collect_entries spaced_world spaced_pins) = [e]
  ∧ lacks_license spaced_world e = false
  ∧ (∃ r, main spaced_world = Return r)
  ∧ header_line e = " a (1.0)"
  ∧ Py.startswith (section_of spaced_world e) (header_line e) = false
  ∧ Py.startswith (section_of spaced_world e) "a (1.0)" = true.
Proof.
  repeat split; try by vm_compute.
  eexists. by vm_compute.
Qed.

(** ** Falsy fields *)

(** C10. The version resolver returns an empty ["version"] field as it is.
    When the section is rendered an empty name, repository or version is
    shown as ["unknown"]: the section is the header line built from the
    displayed name and version, the repository line built from the
    displayed repository, and the license line.  The key of the
    deduplication and of the sort is still the lowercased name of the entry
    itself, so an entry without a name and an entry named ["unknown"] are
    both kept, the nameless one first. *)
Theorem falsy_fields_render_unknown (w : World) (e : entry) :
  version_label {[ "version" := "" ]} = ""
  ∧ (∀ identity location,
       let e0 := entry_of_pin w (Pin identity location (Some {[ "version" := "" ]})) in
       version e0 = "" ∧ display_version e0 = "unknown")
  ∧ (name e = "" → display_name e = "unknown")
  ∧ (repo e = "" → display_repo e = "unknown")
  ∧ (version e = "" → display_version e = "unknown")
  ∧ (∃ rest,
       section_of w e
       = Py.lstrip_by Py.isspace
           (display_name e +:+ " (" +:+ display_version e +:+ ")") +:+ LF
         +:+ "Repository: " +:+ display_repo e +:+ LF
         +:+ "License file:" +:+ rest)
  ∧ (name e = "" →
     ∃ rest,
       section_of w e
       = "unknown (" +:+ display_version e +:+ ")" +:+ LF
         +:+ "Repository: " +:+ display_repo e +:+ LF
         +:+ "License file:" +:+ rest)
  ∧ entry_key e = Py.lower (name e)
  ∧ (∀ entries, e ∈ unique_entries entries ↔
                first_with_key (Py.lower (name e)) entries = Some e)
  ∧ (∀ e', name e = "" → name e' = "unknown" →
           unique_entries [e'; e] = [e; e']
           ∧ display_name e = display_name e').
Proof.
  split; [by vm_compute|]. split; [by vm_compute|].
  unfold display_name, display_repo, display_version.
  split; [by intros ->|]. split; [by intros ->|]. split; [by intros ->|].
  split; [apply section_of_shape|]. split.
  { intros Hname. destruct (section_of_shape w e) as [rest Hrest].
    exists rest. rewrite Hrest. unfold header_line, display_name.
    rewrite Hname.
    change (Py.lstrip_by Py.isspace
              (Py.or_else "" "unknown" +:+ " (" +:+ display_version e +:+ ")"))
      with ("unknown (" +:+ (display_version e +:+ ")")).
    by rewrite !append_assoc. }
  split; [done|].
  split; [intros entries; apply (unique_entries_members entries e)|].
  intros e' Hname Hname'. rewrite Hname, Hname'. split; [|done].
  destruct e as [n r v d], e' as [n' r' v' d']. simpl in Hname, Hname'.
  subst n n'. by vm_compute.
Qed.

Lemma falsy_fields_render_unknown_witness :
  Py.startswith
    (section_of bare_world (Entry "" "" "" None))
    ("unknown (unknown)" +:+ LF +:+ "Repository: unknown" +:+ LF) = true
  ∧ ∃ rest,
      section_of bare_world (Entry "" "" "" None)
      = "unknown (" +:+ display_version (Entry "" "" "" None) +:+ ")" +:+ LF
        +:+ "Repository: " +:+ display_repo (Entry "" "" "" None) +:+ LF
        +:+ "License file:" +:+ rest.
Proof.
  split; [by vm_compute|].
  by apply (falsy_fields_render_unknown bare_world (Entry "" "" "" None)).
Defined.

Lemma load_pins_contract_witness :
  load_pins bare_world = Exit 1 ("ERROR: Package.resolved not found." +:+ LF)
  ∧ load_pins sample_world = Return sample_pins
  ∧ load_pins pinless_world = Return [].
Proof.
  split; [|split].
  - by apply (proj1 (load_pins_contract bare_world)).
  - by apply (proj1 (proj2 (load_pins_contract sample_world))).
  - by apply (proj2 (proj2 (load_pins_contract pinless_world))).
Defined.



(** * Further properties of the script *)

(** ** The file finder *)

(** X1. [pick_first_existing] answers the path of the first name of the
    list, in order, whose path under the directory is a file: every name
    before it is not a file there; it answers nothing exactly when no name
    of the list is a file there. *)
Theorem pick_first_existing_first_match (w : World) (base_dir : string)
    (names : list string) :
  match pick_first_existing w base_dir names with
  | Some c =>
      ∃ before n after,
        names = before ++ n :: after
        ∧ c = Py.path_join base_dir [n]
        ∧ isfile w c = true
        ∧ ∀ m, m ∈ before → isfile w (Py.path_join base_dir [m]) = false
  | None => ∀ n, n ∈ names → isfile w (Py.path_join base_dir [n]) = false
  end.
Proof.
  induction names as [|n l IH]; simpl.
  - by intros n ?%elem_of_nil.
  - destruct (isfile w (Py.join2 base_dir n)) eqn:Hn.
    + exists [], n, l. repeat split; [done|]. by intros m ?%elem_of_nil.
    + destruct (pick_first_existing w base_dir l) as [c|].
      * destruct IH as (before & n' & after & -> & -> & Hc & Hbefore).
        exists (n :: before), n', after. repeat split; [done|].
        intros m [->|?]%elem_of_cons; [done|by apply Hbefore].
      * intros m [->|?]%elem_of_cons; [done|by apply IH].
Qed.

Lemma pick_first_existing_Some (w : World) (base_dir : string)
    (names : list string) (c : string) :
  pick_first_existing w base_dir names = Some c →
  isfile w c = true ∧ ∃ n, n ∈ names ∧ c = Py.path_join base_dir [n].
Proof.
  induction names as [|n l IH]; simpl; [done|].
  destruct (isfile w (Py.join2 base_dir n)) eqn:Hn.
  - intros [= <-]. split; [done|]. exists n. split; [left|done].
  - intros [? (m & ? & ?)]%IH. split; [done|]. exists m. split; [by right|done].
Qed.

Lemma endswith_slash_inv (s : string) :
  Py.endswith s "/" = true → ∃ a, s = a +:+ "/".
Proof.
  induction s as [|c s IH]; [done|]. rewrite endswith_unfold.
  destruct (String.eqb_spec (String c s) "/") as [->|_]; [by exists ""|].
  intros [a ->]%IH. by exists (String c a).
Qed.

Lemma basename_join2 (d n : string) :
  has_char "/" n = false → Py.basename (Py.join2 d n) = n.
Proof.
  intros Hn. unfold Py.join2, Py.startswith.
  assert (String.prefix "/" n = false) as ->.
  { destruct n as [|c n]; [done|]. simpl in Hn.
    apply orb_false_iff in Hn as [Hc _]. apply Ascii.eqb_neq in Hc.
    change (String.prefix "/" (String c n))
      with (if Ascii.ascii_dec "/" c then String.prefix "" n else false).
    by destruct (Ascii.ascii_dec "/" c) as [<-|]. }
  destruct (negb (Py.truthy d) || Py.endswith d "/") eqn:Hd.
  - apply orb_true_iff in Hd as [Hd|Hd].
    + destruct d; [|done]. by apply basename_go_no_slash.
    + apply endswith_slash_inv in Hd as [a ->].
      rewrite append_assoc. by apply basename_append.
  - by apply basename_append.
Qed.

(** X2. The license file and the notice file found for an entry are files,
    they lie in the directory of the entry, which exists, and the name
    shown for them (their base name) is one of the candidate names. *)
Theorem found_files_are_candidates (w : World) (e : entry) :
  (∀ lp, license_path w e = Some lp →
     isfile w lp = true
     ∧ Py.basename lp ∈ LICENSE_FILES
     ∧ ∃ d, path e = Some d ∧ isdir w d = true
            ∧ lp = Py.path_join d [Py.basename lp])
  ∧ (∀ np, notice_path w e = Some np →
     isfile w np = true
     ∧ Py.basename np ∈ NOTICE_FILES
     ∧ ∃ d, path e = Some d ∧ isdir w d = true
            ∧ np = Py.path_join d [Py.basename np]).
Proof.
  assert (Hgen : ∀ names f,
            (∀ n, n ∈ names → has_char "/" n = false) →
            (p ← usable_dir w e; pick_first_existing w p names) = Some f →
            isfile w f = true ∧ Py.basename f ∈ names
            ∧ ∃ d, path e = Some d ∧ isdir w d = true
                   ∧ f = Py.path_join d [Py.basename f]).
  { intros names f Hnames. unfold usable_dir.
    destruct (path e) as [d|]; [|done].
    destruct (Py.truthy d && isdir w d) eqn:Hd; [|done]. cbn [mbind option_bind].
    intros [Hf (n & Hn & ->)]%pick_first_existing_Some.
    apply andb_true_iff in Hd as [_ Hd].
    assert (Hb : Py.basename (Py.path_join d [n]) = n)
      by by apply basename_join2, Hnames.
    rewrite Hb. split; [done|]. split; [done|]. by exists d. }
  split; intros f Hf; apply Hgen in Hf; try done.
  - intros n Hn. unfold LICENSE_FILES in Hn.
    repeat (apply elem_of_cons in Hn as [->|Hn]; [done|]).
    by apply elem_of_nil in Hn.
  - intros n Hn. unfold NOTICE_FILES in Hn.
    repeat (apply elem_of_cons in Hn as [->|Hn]; [done|]).
    by apply elem_of_nil in Hn.
Qed.

(** ** Paths under the checkouts root *)

Lemma endswith_last (a : string) (c d : ascii) :
  Py.endswith (a +:+ String c "") (String d "") = Ascii.eqb c d.
Proof.
  induction a as [|x a IH].
  - rewrite endswith_unfold. simpl. by destruct (Ascii.eqb c d).
  - change (String x a +:+ String c "") with (String x (a +:+ String c "")).
    rewrite endswith_unfold, IH.
    assert (String.eqb (String x (a +:+ String c "")) (String d "") = false) as ->.
    { apply String.eqb_neq. intros [= _ Ha]. by destruct a. }
    done.
Qed.

Lemma checkouts_root_no_slash_end (w : World) :
  Py.truthy (checkouts_root w) = true
  ∧ Py.endswith (checkouts_root w) "/" = false.
Proof.
  unfold checkouts_root, Py.path_join. simpl.
  split; [apply join2_truthy; by rewrite orb_true_r|].
  unfold Py.join2 at 1. simpl Py.startswith.
  destruct (negb _ || _).
  - change "checkouts" with ("checkout" +:+ "s").
    by rewrite <- append_assoc, endswith_last.
  - change "checkouts" with ("checkout" +:+ "s").
    by rewrite <- !append_assoc, endswith_last.
Qed.

(** X3. A directory name that starts with a slash is taken as it is, so the
    candidate built from such an identity is the identity itself and not a
    path under the checkouts root; every other name is appended to the
    checkouts root after one slash. *)
Theorem checkouts_path_cases (w : World) (dir : string) :
  checkouts_path w dir =
    if Py.startswith dir "/" then dir
    else checkouts_root w +:+ "/" +:+ dir.
Proof.
  change (checkouts_path w dir) with (Py.join2 (checkouts_root w) dir).
  destruct (checkouts_root_no_slash_end w) as [Ht He].
  unfold Py.join2. by rewrite Ht, He.
Qed.

Lemma has_char_basename_go (cur s : string) :
  (has_char "/" s = false → has_char "/" cur = false) →
  has_char "/" (Py.basename_go cur s) = false.
Proof.
  revert cur. induction s as [|c s IH]; intros cur Hcur; simpl.
  - by apply Hcur.
  - destruct (Ascii.eqb c "/") eqn:Hc; [by apply IH|].
    apply IH. intros Hs. apply Hcur. simpl. by rewrite Hc.
Qed.

Lemma has_char_take (c : ascii) (n : nat) (s : string) :
  has_char c s = false → has_char c (Py.take n s) = false.
Proof.
  revert n. induction s as [|x s IH]; intros [|n]; simpl; try done.
  intros [-> ?]%orb_false_iff. by apply IH.
Qed.

(** X4. The directory name taken from a location never contains a slash:
    it is a single path segment, whatever the location is. *)
Theorem location_base_single_segment (location : string) :
  has_char "/" (location_base location) = false.
Proof.
  unfold location_base.
  assert (H : has_char "/" (Py.basename (Py.rstrip_by (Ascii.eqb "/") location)) = false)
    by by apply has_char_basename_go.
  destruct (Py.endswith _ ".git"); [|done]. by apply has_char_take.
Qed.

(** ** Trimmed text *)

Lemma lstrip_by_first (p : ascii → bool) (s : string) (c : ascii) :
  first_char (Py.lstrip_by p s) = Some c → p c = false.
Proof.
  induction s as [|x s IH]; [done|]. simpl.
  destruct (p x) eqn:Hx; [done|]. by intros [= <-].
Qed.

Lemma rstrip_by_fixed_last (p : ascii → bool) (s : string) (c : ascii) :
  Py.rstrip_by p s = s → last_char s = Some c → p c = false.
Proof.
  induction s as [|x s IH]; [done|]. intros Hfix.
  pose proof (rstrip_by_fixed_tail p x s Hfix) as Htail.
  destruct s as [|y s].
  - simpl in *. destruct (p x) eqn:Hx; [done|]. by intros [= <-].
  - change (last_char (String x (String y s))) with (last_char (String y s)).
    by apply IH.
Qed.

Lemma rstrip_by_empty (s : string) :
  Py.rstrip_by Py.isspace s = "" ↔ all_space s = true.
Proof.
  induction s as [|x s IH]; [done|]. simpl.
  destruct (Py.rstrip_by Py.isspace s) as [|y r].
  - destruct (Py.isspace x); simpl; [|done]. by rewrite <- IH.
  - split; [done|]. intros [_ Hs]%andb_true_iff. by apply IH in Hs.
Qed.

Lemma lstrip_by_empty (s : string) :
  Py.lstrip_by Py.isspace s = "" ↔ all_space s = true.
Proof.
  induction s as [|x s IH]; [done|]. simpl.
  destruct (Py.isspace x); simpl; [done|]. done.
Qed.

Lemma strip_empty (s : string) : Py.strip s = "" ↔ all_space s = true.
Proof.
  unfold Py.strip. split.
  - intros H%lstrip_by_empty%rstrip_by_empty.
    rewrite rstrip_by_idem in H. by apply rstrip_by_empty.
  - intros H%rstrip_by_empty. by rewrite H.
Qed.

Lemma strip_trimmed (s : string) :
  (∀ c, first_char (Py.strip s) = Some c → Py.isspace c = false)
  ∧ (∀ c, last_char (Py.strip s) = Some c → Py.isspace c = false).
Proof.
  split; intros c.
  - apply lstrip_by_first.
  - apply rstrip_by_fixed_last, strip_rstrip_fixed.
Qed.

(** X5. The text of a file as [read_file] returns it, and the output of
    [git] as [run_git] returns it, neither begins nor ends with a
    whitespace character; a file, or an output, made of whitespace only is
    read as the empty string, and a failed [git] call as well. *)
Theorem reads_are_trimmed (w : World) (p : string) (args : list string)
    (cwd : string) :
  (∀ c, first_char (read_file w p) = Some c → Py.isspace c = false)
  ∧ (∀ c, last_char (read_file w p) = Some c → Py.isspace c = false)
  ∧ (read_file w p = "" ↔ all_space (file_text w p) = true)
  ∧ (∀ c, first_char (run_git w args cwd) = Some c → Py.isspace c = false)
  ∧ (∀ c, last_char (run_git w args cwd) = Some c → Py.isspace c = false)
  ∧ (run_git w args cwd = "" ↔
     match git w args cwd with
     | Some out => all_space out = true
     | None => True
     end).
Proof.
  unfold read_file, run_git.
  destruct (strip_trimmed (file_text w p)) as [Hf Hl].
  split; [done|]. split; [done|]. split; [apply strip_empty|].
  destruct (git w args cwd) as [out|]; [|done].
  destruct (strip_trimmed out) as [Hf' Hl'].
  split; [done|]. split; [done|]. apply strip_empty.
Qed.

(** X6. [repo_url_for_path] never answers an empty address: it answers the
    trimmed output of [git config --get remote.origin.url] when that output
    has a character that is not whitespace, and nothing when the call fails
    or prints whitespace only. *)
Theorem repo_url_for_path_cases (w : World) (dir : string) :
  repo_url_for_path w dir =
    match git w ["config"; "--get"; "remote.origin.url"] dir with
    | Some out => if all_space out then None else Some (Py.strip out)
    | None => None
    end
  ∧ repo_url_for_path w dir ≠ Some "".
Proof.
  unfold repo_url_for_path, run_git.
  destruct (git w _ dir) as [out|]; [|done].
  destruct (all_space out) eqn:Hout.
  - apply strip_empty in Hout. by rewrite Hout.
  - destruct (Py.strip out) as [|c s] eqn:Hs; [|done].
    apply strip_empty in Hs. congruence.
Qed.

(** ** The local dependency *)

Lemma repo_url_for_path_not_empty (w : World) (dir : string) :
  repo_url_for_path w dir ≠ Some "".
Proof.
  unfold repo_url_for_path.
  by destruct (run_git w _ dir).
Qed.

Lemma or_else_truthy (s d : string) :
  d ≠ "" → Py.or_else s d ≠ "" ∧ Py.or_else (Py.or_else s d) "unknown" = Py.or_else s d.
Proof. intros Hd. unfold Py.or_else. destruct s; simpl; [by destruct d|done]. Qed.

(** X7. The entry of the local dependency exists only when its directory
    does; its name is [SwiftTerm], its directory is the one under the root,
    and its repository and version are never empty, so they are shown as
    they are and never as [unknown].  When no [git] call succeeds they are
    the fallback address and [local]. *)
Theorem local_entry_fields (w : World) (e : entry) :
  e ∈ swiftterm_entries w →
  isdir w (swiftterm_path w) = true
  ∧ swiftterm_entries w = [e]
  ∧ name e = "SwiftTerm"
  ∧ path e = Some (swiftterm_path w)
  ∧ repo e ≠ "" ∧ version e ≠ ""
  ∧ display_name e = "SwiftTerm"
  ∧ display_repo e = repo e
  ∧ display_version e = version e
  ∧ ((∀ args, git w args (swiftterm_path w) = None) →
     repo e = "https://github.com/migueldeicaza/SwiftTerm"
     ∧ version e = "local").
Proof.
  unfold swiftterm_entries. fold (swiftterm_path w).
  destruct (isdir w (swiftterm_path w)) eqn:Hdir; [|by intros ?%elem_of_nil].
  intros ->%list_elem_of_singleton. cbn [name path repo version].
  split; [done|]. split; [done|]. split; [done|]. split; [done|].
  assert (Hrepo : default "https://github.com/migueldeicaza/SwiftTerm"
                    (repo_url_for_path w (swiftterm_path w)) ≠ "").
  { destruct (repo_url_for_path w (swiftterm_path w)) as [url|] eqn:Hurl; [|done].
    simpl. intros ->. by destruct (repo_url_for_path_not_empty w (swiftterm_path w)). }
  set (tag := run_git w ["describe"; "--tags"; "--abbrev=0"] (swiftterm_path w)).
  set (rev := run_git w ["rev-parse"; "--short"; "HEAD"] (swiftterm_path w)).
  assert (Hver : Py.or_else tag (Py.or_else rev "local") ≠ "").
  { apply or_else_truthy. by apply or_else_truthy. }
  split; [done|]. split; [done|]. split; [done|].
  unfold display_repo, display_version. cbn [repo version].
  split; [|split].
  - unfold Py.or_else.
    by destruct (default _ (repo_url_for_path w (swiftterm_path w))).
  - unfold Py.or_else at 1. by destruct (Py.or_else tag _).
  - intros Hgit. unfold tag, rev, repo_url_for_path, run_git.
    by rewrite !Hgit.
Qed.

Lemma local_entry_fields_witness :
  Entry "SwiftTerm" "https://github.com/migueldeicaza/SwiftTerm" "v1.2"
    (Some "/r/SwiftTerm") ∈ swiftterm_entries local_world
  ∧ isdir local_world (swiftterm_path local_world) = true.
Proof.
  assert (H : Entry "SwiftTerm" "https://github.com/migueldeicaza/SwiftTerm"
                "v1.2" (Some "/r/SwiftTerm") ∈ swiftterm_entries local_world).
  { vm_compute. left. }
  split; [exact H|]. by apply (local_entry_fields local_world _ H).
Defined.


Lemma first_with_key_app (k : string) (l1 l2 : list entry) :
  first_with_key k (l1 ++ l2) =
    match first_with_key k l1 with
    | Some e => Some e
    | None => first_with_key k l2
    end.
Proof.
  unfold first_with_key. induction l1 as [|x l IH]; simpl; [done|].
  by destruct (String.eqb (entry_key x) k).
Qed.

Lemma first_with_key_None (k : string) (l : list entry) :
  (∀ e, e ∈ l → entry_key e ≠ k) → first_with_key k l = None.
Proof.
  intros Hall. destruct (first_with_key k l) as [e|] eqn:He; [|done].
  apply first_with_key_Some in He as [Hin Hk]. by destruct (Hall e Hin).
Qed.

(** X8. When the directory of the local dependency exists and no pin has
    the identity [SwiftTerm] up to case, the entry of the local dependency
    is in the output, and so is every entry the manifest alone would give:
    the output holds exactly those. *)
Theorem local_entry_listed_unless_shadowed (w : World) (pins : list pin) :
  isdir w (swiftterm_path w) = true →
  (∀ p, p ∈ pins →
        Py.lower (default "" (pin_identity p)) ≠ Py.lower "SwiftTerm") →
  ∃ e, swiftterm_entries w = [e]
       ∧ e ∈ unique_entries (collect_entries w pins)
       ∧ ∀ e', e' ∈ unique_entries (collect_entries w pins) ↔
               e' = e ∨ e' ∈ unique_entries (entry_of_pin w <$> pins).
Proof.
  intros Hdir Hpins.
  assert (∃ e, swiftterm_entries w = [e] ∧ entry_key e = Py.lower "SwiftTerm")
    as (e & He & Hk).
  { unfold swiftterm_entries. fold (swiftterm_path w). rewrite Hdir.
    by eexists. }
  assert (Hnone : first_with_key (entry_key e) (entry_of_pin w <$> pins) = None).
  { apply first_with_key_None. intros e' (p & -> & Hp)%list_elem_of_fmap.
    rewrite Hk. by apply Hpins. }
  assert (Hself : first_with_key (entry_key e) [e] = Some e).
  { unfold first_with_key. simpl. by rewrite String.eqb_refl. }
  exists e. split; [done|]. unfold collect_entries. rewrite He. split.
  - apply unique_entries_members. by rewrite first_with_key_app, Hnone.
  - intros e'. rewrite !unique_entries_members, first_with_key_app.
    destruct (first_with_key (entry_key e') (entry_of_pin w <$> pins))
      as [e''|] eqn:He'.
    + split; [by right|]. intros [->|?]; [congruence|done].
    + split.
      * intros [Hin _]%first_with_key_Some.
        left. by apply list_elem_of_singleton in Hin.
      * intros [->|?]; [exact Hself|done].
Qed.

Lemma local_entry_listed_unless_shadowed_witness :
  isdir local_world (swiftterm_path local_world) = true
  ∧ ∃ e, swiftterm_entries local_world = [e]
         ∧ e ∈ unique_entries (collect_entries local_world local_pins).
Proof.
  split; [by vm_compute|].
  destruct (local_entry_listed_unless_shadowed local_world local_pins)
    as (e & He & Hin & _).
  - by vm_compute.
  - intros p Hp. apply list_elem_of_singleton in Hp as ->. by vm_compute.
  - by exists e.
Defined.

(** ** Deduplicating and sorting again, and in another order *)

Lemma le_ltb_false (a b : string) : (a ≤ b)%string → String.ltb b a = false.
Proof.
  unfold String.le, String.leb, String.ltb.
  rewrite (String.compare_antisym a b).
  destruct (String.compare b a); simpl; done.
Qed.

Lemma sort_by_sorted_id {A : Type} (key : A → string) (l : list A) :
  StronglySorted (λ a b, (key a ≤ key b)%string) l → Py.sort_by key l = l.
Proof.
  induction l as [|x l IH]; [done|].
  intros [Hx Hl]%StronglySorted_cons. simpl. rewrite (IH Hl).
  destruct l as [|y l]; [done|]. simpl.
  apply Forall_cons in Hx as [Hxy _]. by rewrite (le_ltb_false _ _ Hxy).
Qed.

Lemma dedupe_from_distinct (seen : gset string) (l : list entry) :
  NoDup (entry_key <$> l) →
  (∀ e, e ∈ l → entry_key e ∉ seen) →
  dedupe_from seen l = l.
Proof.
  revert seen. induction l as [|x l IH]; intros seen Hnd Hseen; [done|].
  rewrite fmap_cons in Hnd. apply NoDup_cons in Hnd as [Hx Hnd]. simpl.
  rewrite bool_decide_eq_false_2 by (apply Hseen; left).
  f_equal. apply IH; [done|]. intros e He.
  apply not_elem_of_union. split; [|apply Hseen; by right].
  intros Heq%elem_of_singleton. apply Hx. rewrite <- Heq.
  by apply list_elem_of_fmap_2.
Qed.

Lemma key_injective_on (l : list entry) (a b : entry) :
  NoDup (entry_key <$> l) → a ∈ l → b ∈ l → entry_key a = entry_key b → a = b.
Proof.
  induction l as [|x l IH]; [by intros _ ?%elem_of_nil|].
  rewrite fmap_cons. intros [Hx Hnd]%NoDup_cons Ha Hb Hk.
  apply elem_of_cons in Ha as [->|Ha]; apply elem_of_cons in Hb as [->|Hb];
    try done.
  - destruct Hx. rewrite Hk. by apply list_elem_of_fmap_2.
  - destruct Hx. rewrite <- Hk. by apply list_elem_of_fmap_2.
  - by apply IH.
Qed.

Lemma unique_entries_keys_distinct (entries : list entry) :
  NoDup (entry_key <$> unique_entries entries).
Proof.
  unfold unique_entries, dedupe.
  rewrite (sort_by_Permutation entry_key). apply dedupe_from_NoDup.
Qed.

(** X9. The deduplicate-and-sort stage is idempotent: applied to its own
    output it changes nothing. *)
Theorem unique_entries_idempotent (entries : list entry) :
  unique_entries (unique_entries entries) = unique_entries entries.
Proof.
  pose proof (unique_entries_keys_distinct entries) as Hnd.
  unfold unique_entries at 1. unfold dedupe.
  rewrite dedupe_from_distinct; [|done|set_solver].
  apply sort_by_sorted_id. apply (sort_by_sorted entry_key).
Qed.

(** X10. When no two entries share a lowercased name, the output does not
    depend on the order of the entries: two orders of the same entries give
    the same output, which holds every one of them. *)
Theorem unique_entries_order_independent (l1 l2 : list entry) :
  NoDup (entry_key <$> l1) →
  l1 ≡ₚ l2 →
  unique_entries l1 = unique_entries l2
  ∧ unique_entries l1 ≡ₚ l1.
Proof.
  intros Hnd Hperm.
  assert (Hnd2 : NoDup (entry_key <$> l2)) by by rewrite <- Hperm.
  unfold unique_entries, dedupe.
  rewrite !dedupe_from_distinct; [|done|set_solver|done|set_solver].
  split; [|apply sort_by_Permutation].
  apply (StronglySorted_unique_strong (λ a b, (entry_key a ≤ entry_key b)%string)).
  - intros x1 x2 H1%elem_of_sort_by H2%elem_of_sort_by H12 H21.
    apply (key_injective_on l1); [done|done|by rewrite Hperm|].
    by apply (anti_symm String.le).
  - apply sort_by_sorted.
  - apply sort_by_sorted.
  - by rewrite !sort_by_Permutation.
Qed.

Lemma unique_entries_order_independent_witness :
  unique_entries [Entry "b" "" "" None; Entry "A" "" "" None]
  = unique_entries [Entry "A" "" "" None; Entry "b" "" "" None].
Proof.
  apply (unique_entries_order_independent
           [Entry "b" "" "" None; Entry "A" "" "" None]
           [Entry "A" "" "" None; Entry "b" "" "" None]).
  - vm_compute. apply NoDup_cons. split; [|apply NoDup_singleton].
    intros H%list_elem_of_singleton. discriminate H.
  - apply Permutation_swap.
Defined.

(** ** More on the version label *)

Lemma version_label_lookup (state : gmap string string) :
  version_label state =
    match state !! "version", state !! "branch", state !! "revision" with
    | Some v, _, _ => v
    | None, Some b, Some r => b +:+ "@" +:+ Py.take 7 r
    | None, None, Some r => Py.take 7 r
    | None, _, None => "unknown"
    end.
Proof.
  unfold version_label. case_bool_decide as Hempty.
  - subst state. by rewrite !lookup_empty.
  - destruct (state !! "version") as [v|] eqn:Hv.
    { by destruct (has_key_Some _ _ _ Hv) as [-> ->]. }
    rewrite (has_key_None _ _ Hv).
    destruct (state !! "branch") as [b|] eqn:Hb;
      destruct (state !! "revision") as [r|] eqn:Hr;
      repeat match goal with
        | H : _ !! _ = Some _ |- _ =>
            destruct (has_key_Some _ _ _ H) as [-> ->]; clear H
        | H : _ !! _ = None |- _ => rewrite (has_key_None _ _ H); clear H
        end; done.
Qed.

(** X11. The label depends on the three fields [version], [branch] and
    [revision] only: two states that agree on them have the same label, so
    setting any other key of a state leaves its label as it is. *)
Theorem version_label_reads_three_keys (s1 s2 : gmap string string) :
  s1 !! "version" = s2 !! "version" →
  s1 !! "branch" = s2 !! "branch" →
  s1 !! "revision" = s2 !! "revision" →
  version_label s1 = version_label s2
  ∧ ∀ k v, k ≠ "version" → k ≠ "branch" → k ≠ "revision" →
           version_label (<[k:=v]> s1) = version_label s2.
Proof.
  intros Hv Hb Hr. split.
  - by rewrite !version_label_lookup, Hv, Hb, Hr.
  - intros k v Hkv Hkb Hkr.
    by rewrite !version_label_lookup, !lookup_insert_ne, Hv, Hb, Hr.
Qed.

Lemma version_label_reads_three_keys_witness :
  version_label {[ "version" := "1.2.3"; "kind" := "remote" ]}
  = version_label {[ "version" := "1.2.3" ]}.
Proof.
  by apply (version_label_reads_three_keys
              {[ "version" := "1.2.3"; "kind" := "remote" ]}
              {[ "version" := "1.2.3" ]}).
Defined.

Lemma take_prefix (n : nat) (s : string) :
  ∃ rest, s = Py.take n s +:+ rest
          ∧ String.length (Py.take n s) = Nat.min n (String.length s).
Proof.
  revert n. induction s as [|c s IH]; intros [|n]; simpl.
  - by exists "".
  - by exists "".
  - by exists (String c s).
  - destruct (IH n) as (rest & Hs & Hlen). exists rest.
    split; [by rewrite <- Hs|by rewrite Hlen].
Qed.

(** X12. For a state without a [version] that has a [revision], the label
    ends with the revision cut to seven characters: the cut is a prefix of
    the revision of length seven, or the whole revision when it is shorter,
    and with a [branch] the label is the branch, an at sign and that cut. *)
Theorem version_label_revision_prefix (state : gmap string string)
    (r : string) :
  state !! "version" = None →
  state !! "revision" = Some r →
  ∃ short rest,
    r = short +:+ rest
    ∧ String.length short = Nat.min 7 (String.length r)
    ∧ version_label state =
        match state !! "branch" with
        | Some b => b +:+ "@" +:+ short
        | None => short
        end.
Proof.
  intros Hv Hr. destruct (take_prefix 7 r) as (rest & Hrest & Hlen).
  exists (Py.take 7 r), rest. split; [done|]. split; [done|].
  rewrite version_label_lookup, Hv, Hr. by destruct (state !! "branch").
Qed.

Lemma version_label_revision_prefix_witness :
  ∃ short rest,
    "abc" = short +:+ rest
    ∧ String.length short = 3
    ∧ version_label {[ "revision" := "abc" ]} = short.
Proof.
  destruct (version_label_revision_prefix {[ "revision" := "abc" ]} "abc")
    as (short & rest & Hr & Hlen & Hlab); [done|done|].
  exists short, rest. split; [exact Hr|]. split; [exact Hlen|exact Hlab].
Defined.

(** ** A run without dependencies *)

(** X13. When the manifest decodes to no pin and the directory of the local
    dependency does not exist, the run succeeds: it writes the front matter
    followed by one line feed, and nothing else. *)
Theorem empty_manifest_writes_front_matter (w : World) :
  load_pins w = Return [] →
  isdir w (swiftterm_path w) = false →
  main w = Return {| written := FRONT_MATTER +:+ LF;
                     stdout := "[ok] Updated " +:+ OUTPUT_PATH w +:+ LF |}.
Proof.
  intros Hload Hdir. rewrite (main_after_load w [] Hload).
  unfold collect_entries, swiftterm_entries. fold (swiftterm_path w).
  by rewrite Hdir.
Qed.

Lemma empty_manifest_writes_front_matter_witness :
  main pinless_world
  = Return {| written := FRONT_MATTER +:+ LF;
              stdout := "[ok] Updated /r/THIRD-PARTY-NOTICES.md" +:+ LF |}.
Proof.
  by apply (empty_manifest_writes_front_matter pinless_world).
Defined.

(** ** Which fatal exit *)

(** X14. [main] ends with the message that the manifest was not found
    exactly when the manifest is not a file; the exit for missing licenses
    prints another first line, so the two fatal exits are told apart by
    what they print. *)
Theorem manifest_message_iff_absent (w : World) :
  main w = Exit 1 ("ERROR: Package.resolved not found." +:+ LF)
  ↔ isfile w (RESOLVED_PATH w) = false.
Proof.
  unfold main, load_pins.
  destruct (isfile w (RESOLVED_PATH w)); simpl; [|done].
  split; [|done].
  destruct (manifest_json w) as [data|]; simpl; [|done].
  rewrite render_eq. destruct (display_name <$> _); [done|].
  by intros [=].
Qed.

(** ** The layout of a section *)

Lemma header_line_lstrip_kept (e : entry) :
  Py.lstrip_by Py.isspace (header_line e) ≠ "".
Proof.
  unfold header_line. rewrite <- append_assoc.
  change (" (" +:+ display_version e +:+ ")")
    with (" " +:+ String "(" (display_version e +:+ ")")).
  rewrite <- append_assoc. by apply lstrip_by_has_kept.
Qed.

Lemma strip_block (h rest text : string) :
  Py.lstrip_by Py.isspace h ≠ "" →
  text ≠ "" → Py.rstrip_by Py.isspace text = text →
  Py.strip ((h +:+ rest) +:+ text)
  = Py.lstrip_by Py.isspace h +:+ rest +:+ text.
Proof.
  intros Hh Ht Hfix. unfold Py.strip.
  rewrite rstrip_by_app_keep by by rewrite Hfix.
  rewrite Hfix, !append_assoc. by apply lstrip_by_app_keep.
Qed.

Lemma read_file_fixed (w : World) (p : string) :
  Py.rstrip_by Py.isspace (read_file w p) = read_file w p.
Proof. apply strip_rstrip_fixed. Qed.

(** X15. The section of an entry whose license file holds text is, line by
    line: the header line without leading whitespace, the repository line,
    the line naming the license file, an empty line and the trimmed license
    text; when a notice file with text is found too, an empty line, the
    line [NOTICE (<file name>)] and the trimmed notice text follow. *)
Theorem section_layout (w : World) (e : entry) (lp : string) :
  license_path w e = Some lp →
  read_file w lp ≠ "" →
  (notice_path w e = None →
     section_of w e
     = Py.lstrip_by Py.isspace (header_line e) +:+ LF
       +:+ "Repository: " +:+ display_repo e +:+ LF
       +:+ "License file: " +:+ Py.basename lp +:+ LF
       +:+ LF +:+ read_file w lp)
  ∧ (∀ np, notice_path w e = Some np → read_file w np ≠ "" →
     section_of w e
     = Py.lstrip_by Py.isspace (header_line e) +:+ LF
       +:+ "Repository: " +:+ display_repo e +:+ LF
       +:+ "License file: " +:+ Py.basename lp +:+ LF
       +:+ LF +:+ read_file w lp +:+ LF
       +:+ LF +:+ "NOTICE (" +:+ Py.basename np +:+ ")" +:+ LF
       +:+ read_file w np).
Proof.
  intros Hlp Htext. unfold section_of, header, body. rewrite Hlp.
  fold (header_line e). split.
  - intros ->.
    transitivity
      (Py.strip ((header_line e +:+
                  (LF +:+ "Repository: " +:+ display_repo e +:+ LF
                   +:+ "License file: " +:+ Py.basename lp +:+ LF +:+ LF))
                 +:+ read_file w lp)).
    { f_equal. by repeat (rewrite ?append_assoc; simpl). }
    rewrite strip_block;
      [|apply header_line_lstrip_kept|done|apply read_file_fixed].
    by repeat (rewrite ?append_assoc; simpl).
  - intros np -> Hnotice.
    transitivity
      (Py.strip ((header_line e +:+
                  (LF +:+ "Repository: " +:+ display_repo e +:+ LF
                   +:+ "License file: " +:+ Py.basename lp +:+ LF +:+ LF
                   +:+ read_file w lp +:+ LF +:+ LF
                   +:+ "NOTICE (" +:+ Py.basename np +:+ ")" +:+ LF))
                 +:+ read_file w np)).
    { f_equal. by repeat (rewrite ?append_assoc; simpl). }
    rewrite strip_block;
      [|apply header_line_lstrip_kept|done|apply read_file_fixed].
    by repeat (rewrite ?append_assoc; simpl).
Qed.

Lemma section_layout_witness :
  section_of sample_world (Entry "B" "https://x/b.git" "1.2.3" (Some "/r/.build/checkouts/b"))
  = "B (1.2.3)" +:+ LF
    +:+ "Repository: https://x/b.git" +:+ LF
    +:+ "License file: COPYING" +:+ LF
    +:+ LF +:+ "text of /r/.build/checkouts/b/COPYING" +:+ LF
    +:+ LF +:+ "NOTICE (NOTICE.md)" +:+ LF
    +:+ "text of /r/.build/checkouts/b/NOTICE.md".
Proof.
  rewrite (proj2 (section_layout sample_world
                    (Entry "B" "https://x/b.git" "1.2.3" (Some "/r/.build/checkouts/b"))
                    "/r/.build/checkouts/b/COPYING" eq_refl
                    ltac:(by vm_compute))
             "/r/.build/checkouts/b/NOTICE.md" eq_refl ltac:(by vm_compute)).
  by vm_compute.
Defined.

(** * Running again *)

Lemma output_basename (w : World) :
  Py.basename (OUTPUT_PATH w) = "THIRD-PARTY-NOTICES.md".
Proof. unfold OUTPUT_PATH, Py.path_join. simpl. by apply basename_join2. Qed.

Lemma resolved_not_output (w w' : World) : RESOLVED_PATH w ≠ OUTPUT_PATH w'.
Proof.
  intros H. apply (f_equal Py.basename) in H. rewrite output_basename in H.
  unfold RESOLVED_PATH, Py.path_join in H. simpl in H.
  by rewrite basename_join2 in H.
Qed.

Lemma input_not_output (w : World) (d n : string) :
  input_name n = true → Py.path_join d [n] ≠ OUTPUT_PATH w.
Proof.
  intros [Hslash Hname]%andb_true_iff H.
  apply negb_true_iff in Hslash. apply negb_true_iff, String.eqb_neq in Hname.
  apply (f_equal Py.basename) in H. rewrite output_basename in H.
  unfold Py.path_join in H. simpl in H. by rewrite basename_join2 in H.
Qed.

Lemma found_is_not_output (w w' : World) (e : entry) (names : list string)
    (f : string) :
  forallb input_name names = true →
  (p ← usable_dir w e; pick_first_existing w p names) = Some f →
  f ≠ OUTPUT_PATH w'.
Proof.
  intros Hnames. unfold usable_dir. destruct (path e) as [d|]; [|done].
  destruct (Py.truthy d && isdir w d); [|done]. cbn [mbind option_bind].
  intros [_ (n & Hn & ->)]%pick_first_existing_Some.
  apply input_not_output.
  rewrite forallb_forall in Hnames. by apply Hnames, list_elem_of_In.
Qed.

Section SameInputs.
Context (w1 w2 : World) (Hsame : same_inputs w1 w2).

Let Hroot : ROOT w1 = ROOT w2 := proj1 Hsame.
Let Hfile : ∀ p, p ≠ OUTPUT_PATH w1 → isfile w1 p = isfile w2 p :=
  proj1 (proj2 Hsame).
Let Hdir : ∀ p, isdir w1 p = isdir w2 p := proj1 (proj2 (proj2 Hsame)).
Let Htext : ∀ p, p ≠ OUTPUT_PATH w1 → file_text w1 p = file_text w2 p :=
  proj1 (proj2 (proj2 (proj2 Hsame))).
Let Hjson : manifest_json w1 = manifest_json w2 :=
  proj1 (proj2 (proj2 (proj2 (proj2 Hsame)))).
Let Hgit : ∀ args cwd, git w1 args cwd = git w2 args cwd :=
  proj2 (proj2 (proj2 (proj2 (proj2 Hsame)))).

Lemma run_git_inputs args cwd : run_git w1 args cwd = run_git w2 args cwd.
Proof. unfold run_git. by rewrite Hgit. Qed.

Lemma first_dir_inputs candidates :
  first_dir w1 candidates = first_dir w2 candidates.
Proof. induction candidates as [|c l IH]; simpl; [done|]. by rewrite Hdir, IH. Qed.

Lemma collect_entries_inputs pins :
  collect_entries w1 pins = collect_entries w2 pins.
Proof.
  unfold collect_entries. f_equal.
  - apply list_fmap_ext. intros _ p _.
    unfold entry_of_pin, checkout_dir_for_pin, checkout_candidates, checkouts_path.
    by rewrite Hroot, first_dir_inputs.
  - unfold swiftterm_entries, repo_url_for_path.
    by rewrite Hroot, Hdir, !run_git_inputs.
Qed.

Lemma pick_first_existing_inputs base_dir names :
  forallb input_name names = true →
  pick_first_existing w1 base_dir names = pick_first_existing w2 base_dir names.
Proof.
  induction names as [|n l IH]; [done|].
  intros [Hn Hl]%andb_true_iff. simpl.
  rewrite <- (Hfile (Py.join2 base_dir n)), (IH Hl); [done|].
  by apply (input_not_output w1 base_dir n).
Qed.

Lemma found_inputs e names :
  forallb input_name names = true →
  (p ← usable_dir w1 e; pick_first_existing w1 p names)
  = (p ← usable_dir w2 e; pick_first_existing w2 p names).
Proof.
  intros Hnames. unfold usable_dir. destruct (path e) as [d|]; [|done].
  rewrite Hdir. destruct (_ && _); [|done].
  by apply pick_first_existing_inputs.
Qed.

Lemma read_file_inputs p : p ≠ OUTPUT_PATH w1 → read_file w1 p = read_file w2 p.
Proof. intros Hp. unfold read_file. by rewrite Htext. Qed.

Lemma section_of_inputs e : section_of w1 e = section_of w2 e.
Proof.
  unfold section_of, header, body, license_path, notice_path.
  rewrite (found_inputs e LICENSE_FILES), (found_inputs e NOTICE_FILES) by done.
  destruct (p ← usable_dir w2 e; pick_first_existing w2 p LICENSE_FILES)
    as [lp|] eqn:Hlp;
    destruct (p ← usable_dir w2 e; pick_first_existing w2 p NOTICE_FILES)
      as [np|] eqn:Hnp;
    repeat match goal with
      | H : _ = Some ?f |- _ =>
          apply (found_is_not_output w2 w1) in H; [|done];
          rewrite (read_file_inputs f H)
      end; done.
Qed.

Lemma render_inputs entries : render w1 entries = render w2 entries.
Proof.
  unfold render. generalize (@nil string, @nil string).
  induction entries as [|e l IH]; intros acc; simpl; [done|].
  rewrite IH. f_equal. destruct acc as [missing sections].
  unfold render_step, license_path.
  by rewrite (found_inputs e LICENSE_FILES), section_of_inputs.
Qed.

Lemma main_inputs : main w1 = main w2.
Proof.
  assert (Hload : load_pins w1 = load_pins w2).
  { unfold load_pins, RESOLVED_PATH. rewrite <- Hroot, <- Hjson.
    rewrite <- (Hfile (Py.path_join (ROOT w1) ["Package.resolved"])); [done|].
    apply (resolved_not_output w1 w1). }
  unfold main. rewrite Hload.
  destruct (load_pins w2) as [pins| |]; simpl; [|done..].
  rewrite collect_entries_inputs, render_inputs. unfold OUTPUT_PATH.
  by rewrite Hroot.
Qed.
End SameInputs.

Lemma same_inputs_after_write (w : World) (text : string) :
  same_inputs w (after_write w text).
Proof.
  repeat split; simpl; try done; intros p Hp;
    by destruct (String.eqb_spec p (OUTPUT_PATH w)).
Qed.

(** C9. The document does not depend on the output file: two runs whose
    surroundings agree on the root, on the directories, on the decoded
    manifest, on the output of every version-control call and on every file
    but the output file end the same way.  So a run over the surroundings
    an earlier run left, where the output file now exists and holds the
    document, ends as the earlier one did, and the file holds the same
    text after it. *)
Theorem rerun_writes_same_document (w : World) :
  (∀ w', same_inputs w w' → main w' = main w)
  ∧ fst (run (snd (run w))) = fst (run w)
  ∧ (∀ r, main w = Return r →
       main (snd (run w)) = Return r
       ∧ isfile (snd (run w)) (OUTPUT_PATH w) = true
       ∧ file_text (snd (run w)) (OUTPUT_PATH w) = written r
       ∧ file_text (snd (run (snd (run w)))) (OUTPUT_PATH w) = written r).
Proof.
  assert (Hany : ∀ w', same_inputs w w' → main w' = main w).
  { intros w' Hsame. symmetry. by apply main_inputs. }
  assert (Hret : ∀ r, main w = Return r →
                      run w = (Return r, after_write w (written r))
                      ∧ main (after_write w (written r)) = Return r).
  { intros r Hr. split; [unfold run; by rewrite Hr|].
    rewrite <- Hr. apply Hany, same_inputs_after_write. }
  split; [done|]. split.
  - destruct (main w) as [r| |] eqn:Hmain.
    + destruct (Hret r eq_refl) as [Hrun Hagain].
      rewrite Hrun. simpl. unfold run. by rewrite Hagain.
    + unfold run. rewrite Hmain. simpl. by rewrite Hmain.
    + unfold run. rewrite Hmain. simpl. by rewrite Hmain.
  - intros r Hr. destruct (Hret r Hr) as [Hrun Hagain].
    rewrite Hrun. simpl. split; [done|].
    rewrite String.eqb_refl. split; [done|]. split; [done|].
    unfold run. rewrite Hagain. simpl.
    change (OUTPUT_PATH (after_write w (written r))) with (OUTPUT_PATH w).
    by rewrite String.eqb_refl.
Qed.

Lemma rerun_writes_same_document_witness :
  same_inputs sample_world (after_write sample_world "an older document")
  ∧ main (after_write sample_world "an older document") = main sample_world
  ∧ ∃ r, main sample_world = Return r ∧ main (snd (run sample_world)) = Return r.
Proof.
  pose proof (same_inputs_after_write sample_world "an older document") as Hsame.
  destruct (rerun_writes_same_document sample_world) as (Hany & _ & Hret).
  split; [exact Hsame|]. split; [exact (Hany _ Hsame)|].
  destruct (main sample_world) as [r| |] eqn:Hmain; [|by vm_compute in Hmain..].
  exists r. split; [done|]. by apply Hret.
Defined.
